(** * ipv4_to_ipv6_lookup: a shallow embedding and its verification

    The program reads candidate IPv4 addresses from a text file, resolves
    each one to an IPv6 address (reverse lookup, then forward lookup in the
    IPv6 family) on a bounded thread pool, and writes the addresses found to
    an output file.

    Python values are modelled as follows.
    - A [str] is a list of Unicode code points.
    - A call that may raise returns a [result]: a value or the exception.
    - The operating system (files, resolver) is an explicit record of
      oracles, [os].
    - The thread pool is a transition system over the program counters of
      the tasks; a run is a schedule, the list of the tasks' turns. *)

From stdpp Require Import base option list numbers strings gmap.
From Stdlib Require Import QArith.

Local Open Scope Z_scope.
Local Open Scope list_scope.

(** ** Python values *)

Module Py.

(** A Python [str]: a sequence of code points. *)
Abbreviation str := (list N).

(** A string literal of the source. *)
Fixpoint lit (s : string) : str :=
  match s with
  | EmptyString => []
  | String c s' => Ascii.N_of_ascii c :: lit s'
  end.

(** The exception classes that occur.  [FileNotFoundError],
    [PermissionError], [herror] and [gaierror] are subclasses of [OSError];
    [UnicodeError] is a subclass of [ValueError]; every class is a subclass
    of [Exception]. *)
Inductive exn : Type :=
| FileNotFoundError
| PermissionError
| OSError
| herror
| gaierror
| UnicodeError
| ValueError
| TypeError
| ZeroDivisionError.

#[global] Instance exn_eq_dec : EqDecision exn.
Proof. solve_decision. Defined.

(** [isinstance(e, OSError)]. *)
Definition is_OSError (e : exn) : bool :=
  match e with
  | FileNotFoundError | PermissionError | OSError | herror | gaierror => true
  | _ => false
  end.

(** [isinstance(e, FileNotFoundError)]. *)
Definition is_FileNotFoundError (e : exn) : bool :=
  match e with
  | FileNotFoundError => true
  | _ => false
  end.

(** The result of a call: the value returned or the exception raised. *)
Inductive result (A : Type) : Type :=
| Return (a : A)
| Raise (e : exn).
Arguments Return {A} a.
Arguments Raise {A} e.

Definition raises {A} (r : result A) : bool :=
  match r with
  | Return _ => false
  | Raise _ => true
  end.

(** [s + e] for a [str] [s] and an exception object [e]: [str.__add__]
    accepts only a [str], and no exception class defines [__radd__]. *)
Definition add_str_exn (s : str) (e : exn) : result str := Raise TypeError.

(** [a / b] on [int]: true division, the float idealised as a rational. *)
Definition truediv (a b : Z) : result Q :=
  if b =? 0 then Raise ZeroDivisionError
  else Return (inject_Z a / inject_Z b)%Q.

(** [c.isspace()] for one code point (CPython's [_PyUnicode_IsWhitespace]). *)
Definition isspace (c : N) : bool :=
  ((9 <=? c) && (c <=? 13) || (28 <=? c) && (c <=? 32)
   || (c =? 133) || (c =? 160) || (c =? 5760)
   || (8192 <=? c) && (c <=? 8202)
   || (c =? 8232) || (c =? 8233) || (c =? 8239) || (c =? 8287)
   || (c =? 12288))%N.

Fixpoint lstrip (s : str) : str :=
  match s with
  | [] => []
  | c :: s' => if isspace c then lstrip s' else s
  end.

Definition rstrip (s : str) : str := reverse (lstrip (reverse s)).

(** [s.strip()]. *)
Definition strip (s : str) : str := rstrip (lstrip s).

(** [s.startswith(p)]. *)
Fixpoint startswith (s p : str) : bool :=
  match p, s with
  | [], _ => true
  | _ :: _, [] => false
  | a :: p', c :: s' => (c =? a)%N && startswith s' p'
  end.

(** Truth value of a [str]. *)
Definition truthy (s : str) : bool :=
  match s with
  | [] => false
  | _ :: _ => true
  end.

(** Truth value of a [str] or [None]. *)
Definition truthy_opt (o : option str) : bool :=
  match o with
  | None => false
  | Some s => truthy s
  end.

End Py.

Import Py.

(** ** The operating system *)

(** A socket address of the IPv6 family:
    [(address, port, flowinfo, scope_id)]. *)
Record sockaddr : Type := SockAddr {
  sa_address : str;
  sa_port : Z;
  sa_flowinfo : Z;
  sa_scope_id : Z
}.

(** An entry of [socket.getaddrinfo]:
    [(family, type, proto, canonname, sockaddr)]. *)
Record addrinfo : Type := AddrInfo {
  ai_family : Z;
  ai_type : Z;
  ai_proto : Z;
  ai_canonname : str;
  ai_sockaddr : sockaddr
}.

(** What the program calls outside itself.
    - [gethostbyaddr a] is [socket.gethostbyaddr(a)]:
      [(hostname, aliaslist, ipaddrlist)].
    - [getaddrinfo h] is [socket.getaddrinfo(h, None, socket.AF_INET6)].
    - [open_read p] is opening [p] for reading and iterating over its
      lines (each with its line end), or the exception raised on the way.
    - [write_fault p] tells how writing to [p] goes: [None] when every
      operation succeeds, [Some (0, e)] when [open(p, 'w')] raises [e],
      [Some (S k, e)] when the file is opened and the write of index [k]
      raises [e].  A write is taken to reach the file whole or not at all:
      the buffer of the text layer, which defers an error to a later write
      or to the close of the file and may leave part of a line, is not
      modelled, so nothing is stated about what a file holds after a
      write has failed. *)
Record os : Type := OS {
  gethostbyaddr : str → result (str * list str * list str);
  getaddrinfo : str → result (list addrinfo);
  open_read : str → result (list str);
  write_fault : str → option (nat * exn)
}.

(** ** Resolver: [resolve_ipv4_to_ipv6] *)

(** Lines 32-36: the loop collecting the addresses not seen yet. *)
Fixpoint extract_loop (addr_info : list addrinfo) (ipv6_addresses : list str)
  : list str :=
  match addr_info with
  | [] => ipv6_addresses
  | info :: rest =>
      let ipv6_addr := sa_address (ai_sockaddr info) in
      if bool_decide (ipv6_addr ∈ ipv6_addresses)
      then extract_loop rest ipv6_addresses
      else extract_loop rest (ipv6_addresses ++ [ipv6_addr])
  end.

(** Line 42: [except (socket.herror, socket.gaierror, OSError)]. *)
Definition resolve_handles (e : exn) : bool :=
  match e with
  | herror | gaierror => true
  | _ => is_OSError e
  end.

(** Lines 24-46.  [Return (Some a)] is the address found, [Return None] is
    [None]; an exception the [except] clause does not name propagates. *)
Definition resolve_ipv4_to_ipv6 (w : os) (ipv4_address : str)
  : result (option str) :=
  match gethostbyaddr w ipv4_address with
  | Raise e => if resolve_handles e then Return None else Raise e
  | Return (hostname, _, _) =>
      match getaddrinfo w hostname with
      | Raise e => if resolve_handles e then Return None else Raise e
      | Return addr_info =>
          let ipv6_addresses := extract_loop addr_info [] in
          match ipv6_addresses with
          | a :: _ => Return (Some a)
          | [] => Return None
          end
      end
  end.

(** De-duplication as the specification words it: the first occurrence of
    every element is kept, in the order of the list. *)
Fixpoint dedup_spec (l : list str) : list str :=
  match l with
  | [] => []
  | x :: l' => x :: filter (λ y, y ≠ x) (dedup_spec l')
  end.

(** The addresses of a forward lookup, in the order of the answer. *)
Definition addresses (addr_info : list addrinfo) : list str :=
  (λ info, sa_address (ai_sockaddr info)) <$> addr_info.

(** The resolver as the specification words it: reverse lookup, forward
    lookup, de-duplication, first address; a failed lookup gives
    [Return None] when the error is an [OSError]. *)
Definition resolve_spec (w : os) (candidate : str) : result (option str) :=
  match gethostbyaddr w candidate with
  | Raise e => if is_OSError e then Return None else Raise e
  | Return (hostname, _, _) =>
      match getaddrinfo w hostname with
      | Raise e => if is_OSError e then Return None else Raise e
      | Return addr_info => Return (head (dedup_spec (addresses addr_info)))
      end
  end.

(** ** Input Loader *)

(** Lines 62-66: the loop over the lines of the input file. *)
Fixpoint read_loop (f : list str) (ipv4_addr : list str) : list str :=
  match f with
  | [] => ipv4_addr
  | line :: rest =>
      let line := strip line in
      if truthy line && negb (startswith line (lit "#"))
      then read_loop rest (ipv4_addr ++ [line])
      else read_loop rest ipv4_addr
  end.

(** The candidates of a file, as the specification words it: a trimmed line
    is kept when it is not empty and its first character is not [#]. *)
Definition kept (line : str) : bool :=
  match line with
  | [] => false
  | c :: _ => negb (c =? 35)%N
  end.

Definition candidates_spec (lines : list str) : list str :=
  filter (λ l, kept l = true) (strip <$> lines).

(** ** Console output and file effects *)

(** What [print] writes.  The formatted lines keep their operands; a float
    is its exact rational value, and the elapsed time of line 130 is left
    out. *)
Inductive message : Type :=
| MsgInputNotFound (input_file : str)      (* line 68 *)
| MsgText (s : str)                        (* lines 71, 116, 126 *)
| MsgNoAddresses                           (* line 75 *)
| MsgProcessing (n : nat)                  (* line 78 *)
| MsgProgress (processed : Q) (found : Z)  (* lines 99-101 *)
| MsgCompleted                             (* line 130 *)
| MsgTotal (processed : Z)                 (* line 131 *)
| MsgFound (found : Z)                     (* line 132 *)
| MsgRate (rate : Q)                       (* line 133 *)
| MsgSaved (output_file : str).            (* line 134 *)

(** The observable actions of a run, in the order they happen. *)
Inductive event : Type :=
| EPrint (m : message)
| ELookup (ipv4 : str)           (* a task calls [resolve_ipv4_to_ipv6] *)
| EOpenWrite (p : str)           (* [open(p, 'w')]: created or truncated *)
| EWrite (p : str) (data : str). (* [f.write(data)] on [p] *)

(** A computation of the main thread: the events it caused and how it
    ended. *)
Definition io (A : Type) : Type := (list event * result A)%type.

#[global] Instance io_ret : MRet io := λ A a, ([], Return a).

#[global] Instance io_bind : MBind io := λ A B k m,
  match m with
  | (t, Return a) => let '(t', r) := k a in (t ++ t', r)
  | (t, Raise e) => (t, Raise e)
  end.

Definition emit (e : event) : io unit := ([e], Return tt).
Definition throw {A} (e : exn) : io A := ([], Raise e).
Definition lift {A} (r : result A) : io A := ([], r).

(** [try: m except Exception as e: h e]. *)
Definition try_except {A} (m : io A) (h : exn → io A) : io A :=
  match m with
  | (t, Raise e) => let '(t', r) := h e in (t ++ t', r)
  | (t, Return a) => (t, Return a)
  end.

Definition print (m : message) : io unit := emit (EPrint m).

(** The events the worker threads caused. *)
Definition events (t : list event) : io unit := (t, Return tt).

(** The files after a sequence of events. *)
Definition apply_event (fs : gmap str str) (e : event) : gmap str str :=
  match e with
  | EOpenWrite p => <[p := []]> fs
  | EWrite p data => <[p := default [] (fs !! p) ++ data]> fs
  | _ => fs
  end.

Definition replay (t : list event) (fs : gmap str str) : gmap str str :=
  foldl apply_event fs t.

(** Splitting a file's content into its lines, each ended by a line feed. *)
Fixpoint lines_from (cur : str) (content : str) : list str :=
  match content with
  | [] => match cur with [] => [] | _ :: _ => [reverse cur] end
  | c :: rest =>
      if (c =? 10)%N then reverse cur :: lines_from [] rest
      else lines_from (c :: cur) rest
  end.

Definition file_lines (content : str) : list str := lines_from [] content.

(** ** Resolution Engine: the tasks of the thread pool *)

(** Where a task stands in [process_single_ip] (lines 86-101).  [ipv6] is
    the task's local variable, [tmp] the value read by the load half of an
    augmented assignment.  [Finished] keeps the value [ipv6] had when the
    task returned. *)
Inductive pc : Type :=
| Queued                                  (* submitted, line 108 *)
| Running                                 (* line 89, before the call *)
| AtLock (ipv6 : option str)              (* line 91, waiting for the lock *)
| LoadProc (ipv6 : option str)            (* line 92, reads [proc_cnt] *)
| StoreProc (ipv6 : option str) (tmp : Z) (* line 92, writes [proc_cnt] *)
| LoadFound (ipv6 : str)                  (* line 94, reads [found_cnt] *)
| StoreFound (ipv6 : str) (tmp : Z)       (* line 94, writes [found_cnt] *)
| Append (ipv6 : str)                     (* line 95 *)
| Progress (ipv6 : option str)            (* lines 98-101, then unlock *)
| Finished (ipv6 : option str)            (* returned *)
| Failed (e : exn).                       (* raised *)

(** The shared variables of [process_ipv4_list], the futures completed so
    far, in the order of their completion, and the events so far. *)
Record state : Type := State {
  tasks : list pc;
  lock : bool;
  proc_cnt : Z;
  found_cnt : Z;
  ipv6_results : list str;
  completed : list pc;
  trace : list event
}.

Definition started (c : pc) : bool :=
  match c with
  | Queued => false
  | _ => true
  end.

Definition is_done (c : pc) : bool :=
  match c with
  | Finished _ | Failed _ => true
  | _ => false
  end.

(** Picked up by a worker and not yet completed. *)
Definition in_flight (c : pc) : bool := started c && negb (is_done c).

(** Inside the [with lock:] block. *)
Definition in_cs (c : pc) : bool :=
  match c with
  | LoadProc _ | StoreProc _ _ | LoadFound _ | StoreFound _ _
  | Append _ | Progress _ => true
  | _ => false
  end.

Fixpoint count {A} (p : A → bool) (l : list A) : nat :=
  match l with
  | [] => O
  | x :: l' => ((if p x then 1 else 0) + count p l')%nat
  end.

Definition set_pc (i : nat) (c : pc) (s : state) : state :=
  State (<[i := c]> (tasks s)) (lock s) (proc_cnt s) (found_cnt s)
        (ipv6_results s) (completed s) (trace s).

Definition set_lock (b : bool) (s : state) : state :=
  State (tasks s) b (proc_cnt s) (found_cnt s)
        (ipv6_results s) (completed s) (trace s).

Definition set_proc_cnt (n : Z) (s : state) : state :=
  State (tasks s) (lock s) n (found_cnt s)
        (ipv6_results s) (completed s) (trace s).

Definition set_found_cnt (n : Z) (s : state) : state :=
  State (tasks s) (lock s) (proc_cnt s) n
        (ipv6_results s) (completed s) (trace s).

Definition append_result (a : str) (s : state) : state :=
  State (tasks s) (lock s) (proc_cnt s) (found_cnt s)
        (ipv6_results s ++ [a]) (completed s) (trace s).

Definition log (e : event) (s : state) : state :=
  State (tasks s) (lock s) (proc_cnt s) (found_cnt s)
        (ipv6_results s) (completed s) (trace s ++ [e]).

(** The task's future completes with [c]. *)
Definition complete (i : nat) (c : pc) (s : state) : state :=
  State (<[i := c]> (tasks s)) (lock s) (proc_cnt s) (found_cnt s)
        (ipv6_results s) (completed s ++ [c]) (trace s).

Section Engine.

Variable w : os.
Variable ipv4_addr : list str.
Variable max_workers : Z.

(** Lines 86-101, one turn of task [i] at a time: a turn executes the
    statement the task stands at.  The result is [None] when the task
    cannot move: it is queued behind an earlier submission or every worker
    is busy, it waits for the lock, or it has completed. *)
Definition process_single_ip (i : nat) (s : state) : option state :=
  match tasks s !! i with
  | None => None
  | Some Queued =>
      if forallb started (take i (tasks s))
         && (Z.of_nat (count in_flight (tasks s)) <? max_workers)
      then Some (set_pc i Running s)
      else None
  | Some Running =>
      match ipv4_addr !! i with
      | None => None
      | Some ipv4 =>
          match resolve_ipv4_to_ipv6 w ipv4 with
          | Return ipv6 => Some (set_pc i (AtLock ipv6) (log (ELookup ipv4) s))
          | Raise e => Some (complete i (Failed e) (log (ELookup ipv4) s))
          end
      end
  | Some (AtLock ipv6) =>
      if lock s then None
      else Some (set_pc i (LoadProc ipv6) (set_lock true s))
  | Some (LoadProc ipv6) =>
      Some (set_pc i (StoreProc ipv6 (proc_cnt s)) s)
  | Some (StoreProc ipv6 tmp) =>
      let next :=
        match ipv6 with
        | Some a => if truthy a then LoadFound a else Progress ipv6
        | None => Progress ipv6
        end in
      Some (set_pc i next (set_proc_cnt (tmp + 1) s))
  | Some (LoadFound a) =>
      Some (set_pc i (StoreFound a (found_cnt s)) s)
  | Some (StoreFound a tmp) =>
      Some (set_pc i (Append a) (set_found_cnt (tmp + 1) s))
  | Some (Append a) =>
      Some (set_pc i (Progress (Some a)) (append_result a s))
  | Some (Progress ipv6) =>
      if proc_cnt s mod 10 =? 0 then
        match truediv (proc_cnt s) (Z.of_nat (length ipv4_addr)) with
        | Return r =>
            Some (complete i (Finished ipv6)
                    (set_lock false
                       (log (EPrint (MsgProgress r (found_cnt s))) s)))
        | Raise e => Some (complete i (Failed e) (set_lock false s))
        end
      else Some (complete i (Finished ipv6) (set_lock false s))
  | Some (Finished _) => None
  | Some (Failed _) => None
  end.

(** One step of the pool: some task takes a turn. *)
Definition step (s s' : state) : Prop := ∃ i, process_single_ip i s = Some s'.

(** A schedule is the list of the tasks' turns. *)
Fixpoint exec (sched : list nat) (s : state) : option state :=
  match sched with
  | [] => Some s
  | i :: rest =>
      match process_single_ip i s with
      | None => None
      | Some s' => exec rest s'
      end
  end.

(** Lines 81-84 and 107-109: every candidate submitted. *)
Definition init : state :=
  State (replicate (length ipv4_addr) Queued) false 0 0 [] [] [].

Definition all_done (s : state) : bool := forallb is_done (tasks s).

Definition reachable (s : state) : Prop := ∃ sched, exec sched init = Some s.

End Engine.

(** ** Fan-in, Result Writer and statistics *)

(** [future.result()]: the task returns [None] or raised. *)
Definition future_result (f : pc) : result unit :=
  match f with
  | Failed e => Raise e
  | _ => Return tt
  end.

(** Lines 112-116, over the futures in the order [as_completed] yields
    them. *)
Fixpoint fan_in (futures : list pc) : io unit :=
  match futures with
  | [] => mret tt
  | future :: rest =>
      try_except (lift (future_result future))
        (λ e, m ← lift (add_str_exn (lit "Error processing address: ") e);
              print (MsgText m));;
      fan_in rest
  end.

(** Lines 123-124 under the fault of the file. *)
Fixpoint write_loop (p : str) (fault : option (nat * exn))
    (ipv6_results : list str) : io unit :=
  match ipv6_results with
  | [] => mret tt
  | ipv6 :: rest =>
      match fault with
      | Some (O, e) => throw e
      | Some (S k, e) =>
          emit (EWrite p (ipv6 ++ [10%N]));; write_loop p (Some (k, e)) rest
      | None =>
          emit (EWrite p (ipv6 ++ [10%N]));; write_loop p None rest
      end
  end.

(** Lines 122-124. *)
Definition write_results (w : os) (output_file : str)
    (ipv6_results : list str) : io unit :=
  match write_fault w output_file with
  | Some (O, e) => throw e
  | Some (S k, e) =>
      emit (EOpenWrite output_file);;
      write_loop output_file (Some (k, e)) ipv6_results
  | None =>
      emit (EOpenWrite output_file);;
      write_loop output_file None ipv6_results
  end.

(** Lines 130-134. *)
Definition print_statistics (output_file : str) (s : state) : io unit :=
  print MsgCompleted;;
  print (MsgTotal (proc_cnt s));;
  print (MsgFound (found_cnt s));;
  q ← lift (truediv (found_cnt s) (proc_cnt s));
  print (MsgRate (q * 100)%Q);;
  print (MsgSaved output_file).

(** Lines 112-134, once every task has completed. *)
Definition finish (w : os) (output_file : str) (s : state) : io unit :=
  fan_in (completed s);;
  written ← try_except
    (write_results w output_file (ipv6_results s);; mret true)
    (λ e, m ← lift (add_str_exn (lit "Error writing output file: ") e);
          print (MsgText m);; mret false);
  if written : bool then print_statistics output_file s else mret tt.

(** ** [process_ipv4_list] *)

(** Lines 49-134 under the schedule [sched] of the pool.  The result is
    [None] when [sched] is not a complete run of the pool: a turn is given
    to a task that cannot move, or a task is left unfinished.  Otherwise it
    is the events of the run and [Return tt] when the function returns,
    [Raise e] when [e] propagates to the caller. *)
Definition process_ipv4_list (w : os) (sched : list nat)
    (input_file output_file : str) (max_workers : Z) : option (io unit) :=
  match open_read w input_file with
  | Raise e =>
      if is_FileNotFoundError e
      then Some (print (MsgInputNotFound input_file))
      else Some (m ← lift (add_str_exn (lit "Error reading input file: ") e);
                 print (MsgText m))
  | Return f =>
      let ipv4_addr := read_loop f [] in
      match ipv4_addr with
      | [] => Some (print MsgNoAddresses)
      | _ :: _ =>
          if max_workers <=? 0
          then Some (print (MsgProcessing (length ipv4_addr));;
                     throw ValueError)
          else
            match exec w ipv4_addr max_workers sched (init ipv4_addr) with
            | None => None
            | Some s =>
                if all_done s
                then Some (print (MsgProcessing (length ipv4_addr));;
                           events (trace s);;
                           finish w output_file s)
                else None
            end
      end
  end.

(** ** What the tasks have done so far

    The predicates below read off a program counter which statements of
    [process_single_ip] the task has executed. *)

(** The task has stored its increment of [proc_cnt] (line 92). *)
Definition past_proc (c : pc) : bool :=
  match c with
  | LoadFound _ | StoreFound _ _ | Append _ | Progress _ | Finished _ => true
  | _ => false
  end.

(** The task has stored its increment of [found_cnt] (line 94). *)
Definition past_found (c : pc) : bool :=
  match c with
  | Append _ => true
  | Progress ipv6 | Finished ipv6 => truthy_opt ipv6
  | _ => false
  end.

(** What the task has appended to [ipv6_results] (line 95). *)
Definition appended (c : pc) : list str :=
  match c with
  | Progress (Some a) | Finished (Some a) => if truthy a then [a] else []
  | _ => []
  end.

(** Waiting to enter the [with lock:] block. *)
Definition at_lock (c : pc) : bool :=
  match c with
  | AtLock _ => true
  | _ => false
  end.

(** About to call the resolver. *)
Definition running (c : pc) : bool :=
  match c with
  | Running => true
  | _ => false
  end.

(** The future of the task, once it has completed. *)
Definition done_part (c : pc) : list pc := if is_done c then [c] else [].

Definition is_failed (c : pc) : bool :=
  match c with
  | Failed _ => true
  | _ => false
  end.

(** The local variable [ipv6] of a task holds what the resolver returned
    for the task's candidate, and a failed task raised what it raised. *)
Definition pc_ok (w : os) (ipv4 : str) (c : pc) : Prop :=
  match c with
  | Queued | Running => True
  | AtLock o | LoadProc o | StoreProc o _ | Progress o | Finished o =>
      resolve_ipv4_to_ipv6 w ipv4 = Return o
  | LoadFound a | StoreFound a _ | Append a =>
      resolve_ipv4_to_ipv6 w ipv4 = Return (Some a) ∧ truthy a = true
  | Failed e => resolve_ipv4_to_ipv6 w ipv4 = Raise e
  end.

(** The value a task read in the load half of [+=] is still the value of
    the counter. *)
Definition tmp_ok (p f : Z) (c : pc) : Prop :=
  match c with
  | StoreProc _ tmp => tmp = p
  | StoreFound _ tmp => tmp = f
  | _ => True
  end.

(** What the pool may have caused: lookups of candidates, and progress
    lines that show a found count within the processed count. *)
Definition event_ok (ipv4_addr : list str) (e : event) : Prop :=
  match e with
  | ELookup ipv4 => ipv4 ∈ ipv4_addr
  | EPrint (MsgProgress r f) =>
      ∃ p, r = (inject_Z p / inject_Z (Z.of_nat (length ipv4_addr)))%Q
           ∧ 0 ≤ f ≤ p ∧ p ≤ Z.of_nat (length ipv4_addr) ∧ p mod 10 = 0
  | _ => False
  end.

(** The invariant of the pool. *)
Record inv (w : os) (ipv4_addr : list str) (s : state) : Prop := Inv {
  inv_pc : Forall2 (pc_ok w) ipv4_addr (tasks s);
  inv_lock : count in_cs (tasks s) = if lock s then 1%nat else 0%nat;
  inv_proc : proc_cnt s = Z.of_nat (count past_proc (tasks s));
  inv_found : found_cnt s = Z.of_nat (count past_found (tasks s));
  inv_tmp : Forall (tmp_ok (proc_cnt s) (found_cnt s)) (tasks s);
  inv_results : ipv6_results s ≡ₚ tasks s ≫= appended;
  inv_completed : completed s ≡ₚ tasks s ≫= done_part;
  inv_trace : Forall (event_ok ipv4_addr) (trace s)
}.

(** An upper bound of the turns a task still takes. *)
Definition remaining (c : pc) : nat :=
  match c with
  | Queued => 9
  | Running => 8
  | AtLock _ => 7
  | LoadProc _ => 6
  | StoreProc _ _ => 5
  | LoadFound _ => 4
  | StoreFound _ _ => 3
  | Append _ => 2
  | Progress _ => 1
  | Finished _ | Failed _ => 0
  end.

Definition measure (s : state) : nat := sum_list (remaining <$> tasks s).

(** The addresses of the candidates that resolve, in candidate order. *)
Definition resolved (w : os) (ipv4_addr : list str) : list str :=
  omap (λ ipv4, match resolve_ipv4_to_ipv6 w ipv4 with
                | Return (Some a) => Some a
                | _ => None
                end) ipv4_addr.

(** The events of writing [ipv6_results] to [p] without a fault. *)
Definition written (p : str) (ipv6_results : list str) : list event :=
  EOpenWrite p :: ((λ a, EWrite p (a ++ [10%N])) <$> ipv6_results).

(** The events of lines 130-134. *)
Definition statistics (output_file : str) (processed found : Z)
  : list event :=
  [EPrint MsgCompleted; EPrint (MsgTotal processed); EPrint (MsgFound found);
   EPrint (MsgRate (inject_Z found / inject_Z processed * 100)%Q);
   EPrint (MsgSaved output_file)].

(** The event touches a file. *)
Definition is_file_event (e : event) : bool :=
  match e with
  | EOpenWrite _ | EWrite _ _ => true
  | _ => false
  end.

(** The event is a line of the statistics. *)
Definition is_statistics (e : event) : bool :=
  match e with
  | EPrint (MsgCompleted | MsgTotal _ | MsgFound _ | MsgRate _ | MsgSaved _) =>
      true
  | _ => false
  end.

(** ** A sample system

    One host has a name and IPv6 addresses; the name of a malformed
    candidate such as [a..b] is rejected by the codec of the socket module
    with [UnicodeError] before any query is sent; every other reverse
    lookup fails with [herror]. *)

Module Sample.

Definition entry (a : str) : addrinfo := AddrInfo 10 1 6 [] (SockAddr a 0 0 0).

Definition input : list str :=
  [lit "# resolvers"; [32; 32; 49; 46; 49; 46; 49; 46; 49; 32; 10]%N;
   [10%N]; lit "8.8.8.8"].

Definition sys : os := OS
  (λ a, if decide (a = lit "1.1.1.1") then Return (lit "one.one", [], [a])
        else if decide (a = lit "a..b") then Raise UnicodeError
        else Raise herror)
  (λ h, if decide (h = lit "one.one")
        then Return [entry (lit "2606::1111"); entry (lit "2606::1111");
                     entry (lit "2606::1001")]
        else Raise gaierror)
  (λ p, if decide (p = lit "list.ipv4") then Return input
        else if decide (p = lit "one.ipv4") then Return [lit "1.1.1.1"]
        else if decide (p = lit "idna.ipv4") then Return [lit "a..b"]
        else if decide (p = lit "mixed.ipv4")
             then Return [lit "1.1.1.1"; lit "a..b"]
        else if decide (p = lit "comments.ipv4")
             then Return [lit "# nothing"; [32; 10]%N]
        else if decide (p = lit "locked.ipv4") then Raise PermissionError
        else Raise FileNotFoundError)
  (λ p, if decide (p = lit "readonly.ipv6") then Some (O, PermissionError)
        else None).

(** The turns of a task whose lookup gives an address, and of one whose
    lookup gives [None]. *)
Definition turns_found (i : nat) : list nat := replicate 9 i.
Definition turns_none (i : nat) : list nat := replicate 6 i.

End Sample.

(** ** The entry point *)

(** [s * n] for a [str] [s] and an [int] [n]. *)
Definition mul_str (s : str) (n : Z) : str := concat (replicate (Z.to_nat n) s).

(** Lines 137-143 under the schedule [sched] of the pool. *)
Definition main (w : os) (sched : list nat) : option (io unit) :=
  match process_ipv4_list w sched (lit "list.ipv4") (lit "list.ipv6") 20 with
  | None => None
  | Some run =>
      Some (print (MsgText (lit "IPv4 to IPv6 Lookup Tool"));;
            print (MsgText (mul_str (lit "=") 30));;
            run)
  end.

(** ** What a run is expected to do

    The definitions below describe a run from the operating system alone,
    without the schedule. *)

(** The future of a candidate once its task has completed. *)
Definition expected_future (w : os) (ipv4 : str) : pc :=
  match resolve_ipv4_to_ipv6 w ipv4 with
  | Return ipv6 => Finished ipv6
  | Raise e => Failed e
  end.

(** The addresses that pass the test of line 93, in candidate order. *)
Definition found_addresses (w : os) (ipv4_addr : list str) : list str :=
  omap (λ ipv4, match resolve_ipv4_to_ipv6 w ipv4 with
                | Return (Some a) => if truthy a then Some a else None
                | _ => None
                end) ipv4_addr.

(** The resolver returns for the candidate. *)
Definition resolves (w : os) (ipv4 : str) : bool :=
  negb (raises (resolve_ipv4_to_ipv6 w ipv4)).

(** How [process_ipv4_list] ends. *)
Definition expected_outcome (w : os) (input_file output_file : str)
    (max_workers : Z) : result unit :=
  match open_read w input_file with
  | Raise e => if is_FileNotFoundError e then Return tt else Raise TypeError
  | Return f =>
      let ipv4_addr := read_loop f [] in
      match ipv4_addr with
      | [] => Return tt
      | _ :: _ =>
          if max_workers <=? 0 then Raise ValueError
          else if forallb (resolves w) ipv4_addr then
            match write_fault w output_file with
            | None => Return tt
            | Some (k, _) =>
                if (k <=? length (found_addresses w ipv4_addr))%nat
                then Raise TypeError
                else Return tt
            end
          else Raise TypeError
      end
  end.

(** The task has returned. *)
Definition is_finished (c : pc) : bool :=
  match c with
  | Finished _ => true
  | _ => false
  end.

(** The task has called the resolver. *)
Definition past_lookup (c : pc) : bool :=
  match c with
  | Queued | Running => false
  | _ => true
  end.

(** The candidates whose tasks have called the resolver. *)
Fixpoint looked_up (ipv4_addr : list str) (l : list pc) : list str :=
  match ipv4_addr, l with
  | ipv4 :: rest, c :: l' =>
      (if past_lookup c then [ipv4] else []) ++ looked_up rest l'
  | _, _ => []
  end.

(** The candidates of the lookups in a trace. *)
Definition lookups (t : list event) : list str :=
  omap (λ e, match e with ELookup ipv4 => Some ipv4 | _ => None end) t.

(** The progress lines of a trace: the fraction shown by each. *)
Definition progress_lines (t : list event) : list Q :=
  omap (λ e, match e with
             | EPrint (MsgProgress r _) => Some r
             | _ => None
             end) t.

(** The fractions [10/n], [20/n], ... up to [d/n]. *)
Definition tens (n d : nat) : list Q :=
  (λ k : nat, inject_Z (10 * Z.of_nat k) / inject_Z (Z.of_nat n))%Q
    <$> seq 1 (d / 10).

(** The file an event opens or writes. *)
Definition event_path (e : event) : option str :=
  match e with
  | EOpenWrite p | EWrite p _ => Some p
  | _ => None
  end.

(** * Verification *)

(** ** Input Loader *)

Lemma startswith_hash (line : str) :
  startswith line (lit "#")
  = match line with [] => false | c :: _ => (c =? 35)%N end.
Proof.
  change (lit "#") with [35%N].
  destruct line as [|c line]; simpl; [done|].
  destruct line; apply andb_true_r.
Qed.

Lemma kept_test (line : str) :
  truthy line && negb (startswith line (lit "#")) = kept line.
Proof. rewrite startswith_hash. by destruct line. Qed.

Lemma read_loop_acc (f acc : list str) :
  read_loop f acc = acc ++ candidates_spec f.
Proof.
  revert acc. induction f as [|line f IH]; intros acc; simpl.
  - unfold candidates_spec. simpl. by rewrite app_nil_r.
  - rewrite kept_test. unfold candidates_spec. rewrite fmap_cons, filter_cons.
    destruct (kept (strip line)) eqn:Hk.
    + rewrite decide_True by done. rewrite IH, <- app_assoc. done.
    + rewrite decide_False by done. apply IH.
Qed.

Lemma lstrip_snoc (s : str) (c : N) :
  isspace c = false → lstrip (s ++ [c]) = lstrip s ++ [c].
Proof.
  intros Hc. induction s as [|d s IH]; simpl.
  - by rewrite Hc.
  - destruct (isspace d); [apply IH | done].
Qed.

Lemma lstrip_idemp (s : str) : lstrip (lstrip s) = lstrip s.
Proof.
  induction s as [|c s IH]; simpl; [done|].
  destruct (isspace c) eqn:Hc; [done|]. simpl. by rewrite Hc.
Qed.

Lemma lstrip_head (s : str) (c : N) (t : str) :
  lstrip s = c :: t → isspace c = false.
Proof.
  induction s as [|d s IH]; simpl; [done|].
  destruct (isspace d) eqn:Hd; [done|]. intros [= <- _]. done.
Qed.

Lemma strip_idemp (s : str) : strip (strip s) = strip s.
Proof.
  unfold strip, rstrip.
  destruct (lstrip s) as [|c t] eqn:Hs; [done|].
  apply lstrip_head in Hs as Hc.
  assert (reverse (lstrip (reverse (c :: t)))
          = c :: reverse (lstrip (reverse t))) as Hu.
  { by rewrite reverse_cons, lstrip_snoc, reverse_app by done. }
  rewrite Hu. simpl. rewrite Hc.
  rewrite reverse_cons, reverse_involutive, lstrip_snoc, lstrip_idemp by done.
  by rewrite reverse_app.
Qed.

(** C1. The Input Loader returns, in the order of the input, exactly the
    trimmed lines that are not empty and do not start with [#]: the loop of
    the source computes [candidates_spec].  Hence a candidate is never
    blank and never a comment, and it is a trimmed line of the input. *)
Theorem loader_candidates (lines : list str) :
  read_loop lines [] = candidates_spec lines
  ∧ Forall (λ c, c ≠ [] ∧ startswith c (lit "#") = false ∧ strip c = c
                 ∧ ∃ line, line ∈ lines ∧ c = strip line)
           (read_loop lines [])
  ∧ (∀ line, line ∈ lines → strip line ≠ [] →
             startswith (strip line) (lit "#") = false →
             strip line ∈ read_loop lines []).
Proof.
  rewrite read_loop_acc. simpl. unfold candidates_spec. split_and!.
  - done.
  - apply Forall_forall. intros c [Hk Hc]%list_elem_of_filter.
    apply list_elem_of_fmap in Hc as (line & -> & Hline).
    split_and!.
    + by destruct (strip line).
    + rewrite startswith_hash.
      destruct (strip line) as [|d t]; simpl in *; [done|].
      by destruct (d =? 35)%N.
    + apply strip_idemp.
    + eauto.
  - intros line Hin Hne Hhash. apply list_elem_of_filter. split.
    + rewrite startswith_hash in Hhash.
      destruct (strip line) as [|d t]; simpl in *; [done|].
      by rewrite Hhash.
    + apply list_elem_of_fmap. eauto.
Qed.

(** ** Resolver *)

Lemma extract_loop_acc (addr_info : list addrinfo) (acc : list str) :
  extract_loop addr_info acc
  = acc ++ filter (λ y, y ∉ acc) (dedup_spec (addresses addr_info)).
Proof.
  revert acc. induction addr_info as [|info rest IH]; intros acc; simpl.
  - by rewrite app_nil_r.
  - set (a := sa_address (ai_sockaddr info)).
    rewrite filter_cons. case_bool_decide as Ha.
    + rewrite decide_False by (intros Hn; by apply Hn). rewrite IH. f_equal.
      rewrite list_filter_filter. apply list_filter_iff.
      intros y. split; [|tauto]. intros Hy. split; [done|]. by intros ->.
    + rewrite decide_True by done. rewrite IH, <- app_assoc. simpl.
      do 2 f_equal. rewrite list_filter_filter. apply list_filter_iff.
      intros y. rewrite not_elem_of_app, list_elem_of_singleton. tauto.
Qed.

Lemma extract_loop_dedup (addr_info : list addrinfo) :
  extract_loop addr_info [] = dedup_spec (addresses addr_info).
Proof.
  rewrite extract_loop_acc. simpl.
  induction (dedup_spec (addresses addr_info)) as [|x l IH]; [done|].
  rewrite filter_cons, decide_True by apply not_elem_of_nil. by f_equal.
Qed.

Lemma dedup_spec_elem (l : list str) (x : str) : x ∈ dedup_spec l ↔ x ∈ l.
Proof.
  induction l as [|y l IH]; simpl; [done|].
  rewrite !elem_of_cons, list_elem_of_filter, IH.
  destruct (decide (x = y)); tauto.
Qed.

Lemma dedup_spec_NoDup (l : list str) : NoDup (dedup_spec l).
Proof.
  induction l as [|y l IH]; simpl; [constructor|].
  constructor.
  - rewrite list_elem_of_filter. tauto.
  - by apply NoDup_filter.
Qed.

Lemma dedup_spec_sublist (l : list str) : dedup_spec l `sublist_of` l.
Proof.
  induction l as [|y l IH]; simpl; [done|].
  apply sublist_skip. etrans; [apply sublist_filter | done].
Qed.

Lemma dedup_spec_head (l : list str) : head (dedup_spec l) = head l.
Proof. by destruct l. Qed.

Lemma resolve_handles_OSError (e : exn) : resolve_handles e = is_OSError e.
Proof. by destruct e. Qed.

Lemma resolve_refines_spec (w : os) (candidate : str) :
  resolve_ipv4_to_ipv6 w candidate = resolve_spec w candidate.
Proof.
  unfold resolve_ipv4_to_ipv6, resolve_spec.
  destruct (gethostbyaddr w candidate) as [[[hostname ?] ?]|e].
  - destruct (getaddrinfo w hostname) as [addr_info|e].
    + rewrite extract_loop_dedup. by destruct (dedup_spec _).
    + by rewrite resolve_handles_OSError.
  - by rewrite resolve_handles_OSError.
Qed.

Lemma extract_loop_snoc (addr_info : list addrinfo) (info : addrinfo)
    (acc : list str) :
  extract_loop (addr_info ++ [info]) acc
  = if bool_decide (sa_address (ai_sockaddr info) ∈ extract_loop addr_info acc)
    then extract_loop addr_info acc
    else extract_loop addr_info acc ++ [sa_address (ai_sockaddr info)].
Proof.
  revert acc. induction addr_info as [|i0 rest IH]; intros acc; simpl.
  - done.
  - destruct (bool_decide _); apply IH.
Qed.

(** C2, amended. For every candidate the resolver does a reverse lookup,
    then a forward lookup of the host name, de-duplicates the addresses
    keeping first occurrences in their order, and returns the first address
    of that list, or [None] when it is empty; a reverse lookup that fails
    with an [OSError] ([herror] and [gaierror] included) gives [None].
    The de-duplication is the loop of lines 32-36: the resolver returns the
    head of the list the loop builds; that list is [dedup_spec] of the
    addresses answered, it has no duplicates and the same elements, in the
    order of the answer, and one more entry at the end of the answer adds
    its address at the end of the list when the list does not hold it and
    changes nothing otherwise.  The list [dedup_spec l] has no duplicates,
    the elements of [l], in the order of [l]. *)
Theorem resolve_two_stage (w : os) (candidate : str) :
  resolve_ipv4_to_ipv6 w candidate = resolve_spec w candidate
  ∧ (∀ e, gethostbyaddr w candidate = Raise e → is_OSError e = true →
          resolve_ipv4_to_ipv6 w candidate = Return None)
  ∧ (∀ hostname aliases ips addr_info,
       gethostbyaddr w candidate = Return (hostname, aliases, ips) →
       getaddrinfo w hostname = Return addr_info →
       resolve_ipv4_to_ipv6 w candidate
       = Return (head (extract_loop addr_info [])))
  ∧ (∀ addr_info,
       extract_loop addr_info [] = dedup_spec (addresses addr_info)
       ∧ NoDup (extract_loop addr_info [])
       ∧ extract_loop addr_info [] `sublist_of` addresses addr_info
       ∧ (∀ x, x ∈ extract_loop addr_info [] ↔ x ∈ addresses addr_info)
       ∧ ∀ info,
           extract_loop (addr_info ++ [info]) []
           = if bool_decide (sa_address (ai_sockaddr info)
                             ∈ extract_loop addr_info [])
             then extract_loop addr_info []
             else extract_loop addr_info []
                  ++ [sa_address (ai_sockaddr info)])
  ∧ (∀ l, NoDup (dedup_spec l) ∧ dedup_spec l `sublist_of` l
          ∧ head (dedup_spec l) = head l
          ∧ ∀ x, x ∈ dedup_spec l ↔ x ∈ l).
Proof.
  split_and!.
  - apply resolve_refines_spec.
  - intros e He Hos. rewrite resolve_refines_spec. unfold resolve_spec.
    by rewrite He, Hos.
  - intros hostname aliases ips addr_info Hg Ha.
    unfold resolve_ipv4_to_ipv6. rewrite Hg, Ha.
    by destruct (extract_loop addr_info []).
  - intros addr_info. rewrite extract_loop_dedup. split_and!.
    + done.
    + apply dedup_spec_NoDup.
    + apply dedup_spec_sublist.
    + intros x. apply dedup_spec_elem.
    + intros info. rewrite <- extract_loop_dedup. apply extract_loop_snoc.
  - intros l. split_and!.
    + apply dedup_spec_NoDup.
    + apply dedup_spec_sublist.
    + apply dedup_spec_head.
    + intros x. apply dedup_spec_elem.
Qed.

Lemma resolve_two_stage_witness :
  resolve_ipv4_to_ipv6 Sample.sys (lit "8.8.8.8") = Return None
  ∧ resolve_ipv4_to_ipv6 Sample.sys (lit "1.1.1.1")
    = Return (Some (lit "2606::1111"))
  ∧ extract_loop
      [Sample.entry (lit "2606::1111"); Sample.entry (lit "2606::1001");
       Sample.entry (lit "2606::1111"); Sample.entry (lit "2606::1001");
       Sample.entry (lit "2606::2222")] []
    = [lit "2606::1111"; lit "2606::1001"; lit "2606::2222"].
Proof.
  destruct (resolve_two_stage Sample.sys (lit "8.8.8.8"))
    as (_ & Hfail & _ & Hloop & _).
  destruct (resolve_two_stage Sample.sys (lit "1.1.1.1"))
    as (_ & _ & Hhead & _).
  split_and!.
  - apply (Hfail herror); reflexivity.
  - rewrite (Hhead (lit "one.one") [] [lit "1.1.1.1"]
               [Sample.entry (lit "2606::1111");
                Sample.entry (lit "2606::1111");
                Sample.entry (lit "2606::1001")]); reflexivity.
  - rewrite (proj1 (Hloop _)). reflexivity.
Defined.

(** C2, as stated, fails: a reverse lookup that fails with an error outside
    [OSError] does not give [None]; the error leaves the resolver. *)
Lemma reverse_failure_escapes :
  gethostbyaddr Sample.sys (lit "a..b") = Raise UnicodeError
  ∧ resolve_ipv4_to_ipv6 Sample.sys (lit "a..b") ≠ Return None.
Proof. split; [reflexivity | discriminate]. Qed.

(** C5, amended. The resolver never lets an [OSError] out: when the
    lookups of a candidate fail only with errors of that family, it
    returns, and a failed reverse lookup, a failed forward lookup and an
    empty address list all give [None]. *)
Theorem resolve_absorbs_OSError (w : os) (candidate : str) :
  (∀ e, gethostbyaddr w candidate = Raise e → is_OSError e = true) →
  (∀ hostname aliases ips e,
     gethostbyaddr w candidate = Return (hostname, aliases, ips) →
     getaddrinfo w hostname = Raise e → is_OSError e = true) →
  ∃ r, resolve_ipv4_to_ipv6 w candidate = Return r
       ∧ (raises (gethostbyaddr w candidate) = true → r = None)
       ∧ (∀ hostname aliases ips,
            gethostbyaddr w candidate = Return (hostname, aliases, ips) →
            raises (getaddrinfo w hostname) = true → r = None)
       ∧ (∀ hostname aliases ips,
            gethostbyaddr w candidate = Return (hostname, aliases, ips) →
            getaddrinfo w hostname = Return [] → r = None).
Proof.
  intros Hrev Hfwd. rewrite resolve_refines_spec. unfold resolve_spec.
  destruct (gethostbyaddr w candidate) as [[[hostname aliases] ips]|e] eqn:Hg.
  - destruct (getaddrinfo w hostname) as [addr_info|e] eqn:Ha.
    + eexists. split_and!; [done|done| |].
      * intros ??? [= <- _ _]. by rewrite Ha.
      * intros ??? [= <- _ _]. rewrite Ha. by intros [= ->].
    + rewrite (Hfwd _ _ _ _ eq_refl Ha).
      eexists. split_and!; [done|done| |]; done.
  - rewrite (Hrev _ eq_refl). eexists. split_and!; done.
Qed.

Lemma resolve_absorbs_OSError_witness :
  ∃ r, resolve_ipv4_to_ipv6 Sample.sys (lit "8.8.8.8") = Return r
       ∧ (raises (gethostbyaddr Sample.sys (lit "8.8.8.8")) = true → r = None)
       ∧ (∀ hostname aliases ips,
            gethostbyaddr Sample.sys (lit "8.8.8.8")
            = Return (hostname, aliases, ips) →
            raises (getaddrinfo Sample.sys hostname) = true → r = None)
       ∧ (∀ hostname aliases ips,
            gethostbyaddr Sample.sys (lit "8.8.8.8")
            = Return (hostname, aliases, ips) →
            getaddrinfo Sample.sys hostname = Return [] → r = None).
Proof.
  apply (resolve_absorbs_OSError Sample.sys (lit "8.8.8.8")).
  - intros e H. vm_compute in H. injection H as <-. reflexivity.
  - intros hostname aliases ips e H. vm_compute in H. discriminate H.
Defined.

(** C5, as stated, fails: the resolver raises for a candidate whose
    reverse lookup fails with an error outside [OSError]. *)
Lemma resolve_raises :
  resolve_ipv4_to_ipv6 Sample.sys (lit "a..b") = Raise UnicodeError.
Proof. reflexivity. Qed.

(** C10. When the forward lookup answers a non-empty list, the resolver
    returns the address of its first entry: de-duplication does not change
    the address returned. *)
Theorem resolve_first_raw (w : os) (candidate hostname : str)
    (aliases ips : list str) (info : addrinfo) (rest : list addrinfo) :
  gethostbyaddr w candidate = Return (hostname, aliases, ips) →
  getaddrinfo w hostname = Return (info :: rest) →
  resolve_ipv4_to_ipv6 w candidate
  = Return (Some (sa_address (ai_sockaddr info)))
  ∧ head (extract_loop (info :: rest) []) = head (addresses (info :: rest)).
Proof.
  intros Hg Ha. rewrite resolve_refines_spec. unfold resolve_spec.
  rewrite Hg, Ha. by rewrite extract_loop_dedup, dedup_spec_head.
Qed.

Lemma resolve_first_raw_witness :
  resolve_ipv4_to_ipv6 Sample.sys (lit "1.1.1.1")
  = Return (Some (lit "2606::1111"))
  ∧ head (extract_loop
            [Sample.entry (lit "2606::1111"); Sample.entry (lit "2606::1111");
             Sample.entry (lit "2606::1001")] [])
    = head (addresses
              [Sample.entry (lit "2606::1111");
               Sample.entry (lit "2606::1111");
               Sample.entry (lit "2606::1001")]).
Proof.
  apply (resolve_first_raw Sample.sys (lit "1.1.1.1") (lit "one.one")
           [] [lit "1.1.1.1"] (Sample.entry (lit "2606::1111"))
           [Sample.entry (lit "2606::1111"); Sample.entry (lit "2606::1001")]);
    reflexivity.
Defined.

(** ** Counting over the task list *)

Section Counting.

Context {A : Type}.
Implicit Types (p q : A → bool) (l : list A).
Local Open Scope nat_scope.

Lemma count_insert p l i x y :
  l !! i = Some x →
  count p (<[i := y]> l) + Nat.b2n (p x) = count p l + Nat.b2n (p y).
Proof.
  revert i. induction l as [|z l IH]; intros [|i] Hi; simpl in *; try done.
  - injection Hi as ->. unfold Nat.b2n. lia.
  - specialize (IH i Hi). lia.
Qed.

Lemma count_le_length p l : count p l ≤ length l.
Proof. induction l as [|z l IH]; simpl; [lia|]. destruct (p z); lia. Qed.

Lemma count_lookup p l i x : l !! i = Some x → Nat.b2n (p x) ≤ count p l.
Proof.
  revert i. induction l as [|z l IH]; intros [|i] Hi; simpl in *; try done.
  - injection Hi as ->. unfold Nat.b2n. lia.
  - specialize (IH i Hi). lia.
Qed.

Lemma count_lookup_two p l i j x y :
  i ≠ j → l !! i = Some x → l !! j = Some y →
  Nat.b2n (p x) + Nat.b2n (p y) ≤ count p l.
Proof.
  revert i j. induction l as [|z l IH]; intros [|i] [|j] Hij Hi Hj;
    simpl in *; try done.
  - injection Hi as ->. pose proof (count_lookup p l j y Hj).
    unfold Nat.b2n in *. lia.
  - injection Hj as ->. pose proof (count_lookup p l i x Hi).
    unfold Nat.b2n in *. lia.
  - assert (i ≠ j) as Hij' by congruence.
    specialize (IH i j Hij' Hi Hj). lia.
Qed.

Lemma count_pos p l :
  0 < count p l → ∃ i x, l !! i = Some x ∧ p x = true.
Proof.
  induction l as [|z l IH]; simpl; [lia|]. intros Hpos.
  destruct (p z) eqn:Hz.
  - by exists 0, z.
  - destruct IH as (i & x & Hi & Hx); [lia|]. by exists (S i), x.
Qed.

Lemma count_none p l : count p l = 0 ↔ Forall (λ x, p x = false) l.
Proof.
  induction l as [|z l IH]; simpl.
  - split; [constructor | done].
  - rewrite Forall_cons, <- IH.
    destruct (p z); split; try lia; try done; by intros [? ?].
Qed.

Lemma count_all p l : Forall (λ x, p x = true) l → count p l = length l.
Proof.
  induction 1 as [|z l Hz _ IH]; simpl; [done|]. rewrite Hz, IH. done.
Qed.

Lemma count_mono p q l :
  (∀ x, p x = true → q x = true) → count p l ≤ count q l.
Proof.
  intros Hpq. induction l as [|z l IH]; simpl; [lia|].
  destruct (p z) eqn:Hz; [rewrite (Hpq z Hz); lia|]. destruct (q z); lia.
Qed.

Lemma sum_list_insert (f : A → nat) l i x y :
  l !! i = Some x →
  sum_list (f <$> <[i := y]> l) + f x = sum_list (f <$> l) + f y.
Proof.
  revert i. induction l as [|z l IH]; intros [|i] Hi; simpl in *; try done.
  - injection Hi as ->. lia.
  - specialize (IH i Hi). unfold fmap in IH. lia.
Qed.

Lemma bind_insert {B} (f : A → list B) l i x y :
  l !! i = Some x → (<[i := y]> l ≫= f) ++ f x ≡ₚ (l ≫= f) ++ f y.
Proof.
  revert i. induction l as [|z l IH]; intros [|i] Hi; simpl in *; try done.
  - injection Hi as ->. rewrite <- !app_assoc.
    rewrite (Permutation_app_comm _ (f x)), (Permutation_app_comm _ (f y)).
    rewrite !app_assoc. f_equiv. apply Permutation_app_comm.
  - rewrite <- !app_assoc. f_equiv. by apply IH.
Qed.

Lemma bind_length_count {B} (f : A → list B) p l :
  (∀ x, length (f x) = Nat.b2n (p x)) → length (l ≫= f) = count p l.
Proof.
  intros Hf. induction l as [|z l IH]; [done|].
  rewrite bind_cons, length_app, Hf, IH. done.
Qed.

Lemma count_replicate p n x : p x = false → count p (replicate n x) = 0.
Proof. intros Hp. apply count_none, Forall_replicate. done. Qed.

Lemma bind_replicate_nil {B} (f : A → list B) n x :
  f x = [] → replicate n x ≫= f = [].
Proof.
  intros Hf. induction n as [|n IH]; [done|].
  change (replicate (S n) x) with (x :: replicate n x).
  by rewrite bind_cons, Hf, IH.
Qed.

End Counting.

(** ** The pool keeps its invariant *)

Lemma truediv_nonzero (a b : Z) :
  b ≠ 0 → truediv a b = Return (inject_Z a / inject_Z b)%Q.
Proof. intros Hb. unfold truediv. by rewrite (proj2 (Z.eqb_neq b 0) Hb). Qed.

Lemma tmp_ok_outside (p f : Z) (c : pc) : in_cs c = false → tmp_ok p f c.
Proof. by destruct c. Qed.

Lemma past_found_proc (c : pc) : past_found c = true → past_proc c = true.
Proof. by destruct c. Qed.

Section PoolInvariant.

Variable w : os.
Variable ipv4_addr : list str.
Variable max_workers : Z.
Hypothesis candidates_nonempty : ipv4_addr ≠ [].

Lemma length_nonzero : Z.of_nat (length ipv4_addr) ≠ 0.
Proof. destruct ipv4_addr; [done|]. simpl. lia. Qed.

Lemma init_inv : inv w ipv4_addr (init ipv4_addr).
Proof.
  unfold init.
  split; simpl.
  - clear. induction ipv4_addr; simpl; by constructor.
  - by apply count_replicate.
  - by rewrite count_replicate.
  - by rewrite count_replicate.
  - apply Forall_replicate. done.
  - by rewrite bind_replicate_nil.
  - by rewrite bind_replicate_nil.
  - constructor.
Qed.

(** At most one task is inside the [with lock:] block. *)
Lemma inv_mutex (s : state) (i j : nat) (ci cj : pc) :
  inv w ipv4_addr s →
  tasks s !! i = Some ci → tasks s !! j = Some cj →
  in_cs ci = true → in_cs cj = true → i = j.
Proof.
  intros Hinv Hi Hj Hci Hcj. destruct (decide (i = j)) as [|Hne]; [done|].
  pose proof (count_lookup_two in_cs _ _ _ _ _ Hne Hi Hj) as Hle.
  rewrite (inv_lock _ _ _ Hinv), Hci, Hcj in Hle.
  destruct (lock s); simpl in Hle; lia.
Qed.

Lemma inv_lock_held (s : state) (i : nat) (c : pc) :
  inv w ipv4_addr s → tasks s !! i = Some c → in_cs c = true →
  lock s = true.
Proof.
  intros Hinv Hi Hc. pose proof (count_lookup in_cs _ _ _ Hi) as Hle.
  rewrite (inv_lock _ _ _ Hinv), Hc in Hle.
  destruct (lock s); simpl in Hle; [done|lia].
Qed.

(** While a task is inside the block, the values the others hold are
    untouched by a change of the counters. *)
Lemma tmp_ok_update (s : state) (i : nat) (c c' : pc) (p f : Z) :
  inv w ipv4_addr s → tasks s !! i = Some c → in_cs c = true →
  tmp_ok p f c' →
  Forall (tmp_ok p f) (<[i := c']> (tasks s)).
Proof.
  intros Hinv Hi Hc Hc'. apply Forall_lookup. intros j cj Hj.
  destruct (decide (i = j)) as [<-|Hne].
  - rewrite list_lookup_insert_eq in Hj by (by eapply lookup_lt_Some).
    by injection Hj as <-.
  - rewrite list_lookup_insert_ne in Hj by done.
    apply tmp_ok_outside. destruct (in_cs cj) eqn:Hcs; [|done].
    by destruct (Hne (inv_mutex _ _ _ _ _ Hinv Hi Hj Hc Hcs)).
Qed.

Ltac count_step Hi :=
  repeat match goal with
  | |- context [count ?p (<[?i := ?y]> ?l)] =>
      let H := fresh "Hcount" in
      pose proof (count_insert p l i _ y Hi) as H; simpl in H;
      generalize dependent (count p (<[i := y]> l)); intros
  end.

Ltac bind_step Hi :=
  match goal with
  | |- _ ≡ₚ <[?i := ?y]> ?l ≫= ?f =>
      let H := fresh "Hbind" in
      pose proof (bind_insert f l i _ y Hi) as H;
      cbv [appended done_part is_done] in H;
      rewrite ?app_nil_r in H
  end.

Lemma turn_inv (i : nat) (s s' : state) :
  inv w ipv4_addr s →
  process_single_ip w ipv4_addr max_workers i s = Some s' →
  inv w ipv4_addr s'.
Proof.
  intros Hinv Hstep.
  pose proof Hinv as [Hpc Hlock Hproc Hfound Htmp Hres Hcomp Htr].
  unfold process_single_ip in Hstep.
  destruct (tasks s !! i) as [c|] eqn:Hi; [|done].
  destruct (Forall2_lookup_r _ _ _ _ _ Hpc Hi) as (ipv4 & Hc & Hok).
  pose proof (Forall_lookup_1 _ _ _ _ Htmp Hi) as Htmpi.
  assert (∀ c', pc_ok w ipv4 c' →
                Forall2 (pc_ok w) ipv4_addr (<[i := c']> (tasks s))) as Hpc'.
  { intros c' Hc'. rewrite <- (list_insert_id _ _ _ Hc).
    by apply Forall2_insert. }
  destruct c; simpl in Hok, Htmpi.
  - (* Queued *)
    destruct (_ && _); [|done]. injection Hstep as <-.
    split; simpl.
    + by apply Hpc'.
    + count_step Hi. lia.
    + count_step Hi. lia.
    + count_step Hi. lia.
    + by apply Forall_insert.
    + bind_step Hi. by rewrite Hbind.
    + bind_step Hi. by rewrite Hbind.
    + done.
  - (* Running *)
    rewrite Hc in Hstep.
    assert (Forall (event_ok ipv4_addr) (trace s ++ [ELookup ipv4])) as Htr'.
    { apply Forall_app. split; [done|]. constructor; [|constructor].
      simpl. by eapply list_elem_of_lookup_2. }
    destruct (resolve_ipv4_to_ipv6 w ipv4) as [ipv6|e] eqn:Hr;
      injection Hstep as <-; split; simpl.
    + by apply Hpc'.
    + count_step Hi. lia.
    + count_step Hi. lia.
    + count_step Hi. lia.
    + by apply Forall_insert.
    + bind_step Hi. by rewrite Hbind.
    + bind_step Hi. by rewrite Hbind.
    + done.
    + by apply Hpc'.
    + count_step Hi. lia.
    + count_step Hi. lia.
    + count_step Hi. lia.
    + by apply Forall_insert.
    + bind_step Hi. by rewrite Hbind.
    + bind_step Hi. by rewrite Hbind, Hcomp.
    + done.
  - (* AtLock *)
    destruct (lock s) eqn:Hl; [done|]. injection Hstep as <-.
    split; simpl.
    + by apply Hpc'.
    + count_step Hi. lia.
    + count_step Hi. lia.
    + count_step Hi. lia.
    + by apply Forall_insert.
    + bind_step Hi. by rewrite Hbind.
    + bind_step Hi. by rewrite Hbind.
    + done.
  - (* LoadProc *)
    injection Hstep as <-. split; simpl.
    + by apply Hpc'.
    + count_step Hi. lia.
    + count_step Hi. lia.
    + count_step Hi. lia.
    + by apply Forall_insert.
    + bind_step Hi. by rewrite Hbind.
    + bind_step Hi. by rewrite Hbind.
    + done.
  - (* StoreProc *)
    injection Hstep as <-. subst tmp.
    set (next := match ipv6 with
                 | Some a => if truthy a then LoadFound a else Progress ipv6
                 | None => Progress ipv6
                 end).
    assert (pc_ok w ipv4 next ∧ in_cs next = true ∧ past_proc next = true
            ∧ past_found next = false ∧ appended next = []
            ∧ done_part next = []
            ∧ ∀ p f, tmp_ok p f next) as (Hn1 & Hn2 & Hn3 & Hn4 & Hn5 & Hn6 & Hn7).
    { subst next. destruct ipv6 as [a|]; [destruct (truthy a) eqn:Ha|];
        simpl; rewrite ?Ha; done. }
    split; simpl.
    + by apply Hpc'.
    + count_step Hi. rewrite Hn2 in *. simpl in *. lia.
    + count_step Hi. rewrite Hn3 in *. simpl in *. lia.
    + count_step Hi. rewrite Hn4 in *. simpl in *. lia.
    + by eapply tmp_ok_update.
    + pose proof (bind_insert appended _ _ _ next Hi) as Hbind.
      rewrite Hn5 in Hbind. simpl in Hbind. rewrite !app_nil_r in Hbind.
      by rewrite Hbind.
    + pose proof (bind_insert done_part _ _ _ next Hi) as Hbind.
      rewrite Hn6 in Hbind. simpl in Hbind. rewrite !app_nil_r in Hbind.
      by rewrite Hbind.
    + done.
  - (* LoadFound *)
    injection Hstep as <-. split; simpl.
    + by apply Hpc'.
    + count_step Hi. lia.
    + count_step Hi. lia.
    + count_step Hi. lia.
    + by apply Forall_insert.
    + bind_step Hi. by rewrite Hbind.
    + bind_step Hi. by rewrite Hbind.
    + done.
  - (* StoreFound *)
    injection Hstep as <-. subst tmp. split; simpl.
    + by apply Hpc'.
    + count_step Hi. lia.
    + count_step Hi. lia.
    + count_step Hi. lia.
    + by eapply tmp_ok_update.
    + bind_step Hi. by rewrite Hbind.
    + bind_step Hi. by rewrite Hbind.
    + done.
  - (* Append *)
    injection Hstep as <-. destruct Hok as [Hok Ha]. split; simpl.
    + by apply Hpc'.
    + count_step Hi. lia.
    + count_step Hi. lia.
    + count_step Hi. rewrite Ha in *. simpl in *. lia.
    + by apply Forall_insert.
    + bind_step Hi. rewrite Ha in Hbind. by rewrite Hbind, Hres.
    + bind_step Hi. by rewrite Hbind.
    + done.
  - (* Progress *)
    assert (s' = complete i (Finished ipv6) (set_lock false s)
            ∨ ∃ r, s' = complete i (Finished ipv6)
                     (set_lock false
                        (log (EPrint (MsgProgress r (found_cnt s))) s))
                   ∧ event_ok ipv4_addr (EPrint (MsgProgress r (found_cnt s))))
      as Hs'.
    { destruct (proc_cnt s mod 10 =? 0) eqn:Hmod.
      - rewrite truediv_nonzero in Hstep by apply length_nonzero.
        injection Hstep as <-. right. eexists. split; [done|].
        exists (proc_cnt s). split_and!; [done| | | |].
        + rewrite Hfound. lia.
        + rewrite Hfound, Hproc. apply inj_le, count_mono, past_found_proc.
        + rewrite Hproc, (Forall2_length _ _ _ Hpc).
          apply inj_le, count_le_length.
        + by apply Z.eqb_eq.
      - injection Hstep as <-. by left. }
    pose proof (inv_lock_held _ _ _ Hinv Hi eq_refl) as Hl.
    rewrite Hl in Hlock.
    assert (appended (Progress ipv6) = appended (Finished ipv6)) as Happ
      by done.
    destruct Hs' as [->|(r & -> & Hev)]; split; simpl.
    + by apply Hpc'.
    + count_step Hi. lia.
    + count_step Hi. lia.
    + count_step Hi. lia.
    + by apply Forall_insert.
    + pose proof (bind_insert appended _ _ _ (Finished ipv6) Hi) as Hbind.
      rewrite Happ in Hbind. apply Permutation_app_inv_r in Hbind.
      by rewrite Hbind.
    + bind_step Hi. by rewrite Hbind, Hcomp.
    + done.
    + by apply Hpc'.
    + count_step Hi. lia.
    + count_step Hi. lia.
    + count_step Hi. lia.
    + by apply Forall_insert.
    + pose proof (bind_insert appended _ _ _ (Finished ipv6) Hi) as Hbind.
      rewrite Happ in Hbind. apply Permutation_app_inv_r in Hbind.
      by rewrite Hbind.
    + bind_step Hi. by rewrite Hbind, Hcomp.
    + apply Forall_app. split; [done|]. by constructor.
  - done.
  - done.
Qed.

Lemma exec_inv (sched : list nat) (s s' : state) :
  inv w ipv4_addr s →
  exec w ipv4_addr max_workers sched s = Some s' →
  inv w ipv4_addr s'.
Proof.
  revert s. induction sched as [|i sched IH]; intros s Hinv Hexec; simpl in *.
  - by injection Hexec as <-.
  - destruct (process_single_ip w ipv4_addr max_workers i s) as [s1|] eqn:Hstep;
      [|done].
    eapply IH; [|done]. by eapply turn_inv.
Qed.

Lemma reachable_inv (s : state) :
  reachable w ipv4_addr max_workers s → inv w ipv4_addr s.
Proof. intros [sched Hexec]. eapply exec_inv; [apply init_inv | done]. Qed.

(** Schedules and sequences of steps are the same runs. *)
Lemma exec_steps (s s' : state) :
  (∃ sched, exec w ipv4_addr max_workers sched s = Some s')
  ↔ rtc (step w ipv4_addr max_workers) s s'.
Proof.
  split.
  - intros [sched Hexec]. revert s Hexec.
    induction sched as [|i sched IH]; intros s Hexec; simpl in Hexec.
    + injection Hexec as <-. apply rtc_refl.
    + destruct (process_single_ip w ipv4_addr max_workers i s) as [s1|] eqn:Hstep;
        [|done].
      eapply rtc_l; [by exists i | by apply IH].
  - induction 1 as [s|s s1 s' [i Hstep] _ [sched Hexec]].
    + by exists [].
    + exists (i :: sched). simpl. by rewrite Hstep.
Qed.

(** A turn changes the program counter of its task only, and brings the
    task closer to its end. *)
Lemma turn_shape (i : nat) (s s' : state) :
  process_single_ip w ipv4_addr max_workers i s = Some s' →
  ∃ c c', tasks s !! i = Some c ∧ tasks s' = <[i := c']> (tasks s)
          ∧ (remaining c' < remaining c)%nat.
Proof.
  unfold process_single_ip. intros Hstep.
  destruct (tasks s !! i) as [c|] eqn:Hi; [|done]. exists c.
  destruct c; try done.
  - destruct (_ && _); [|done]. injection Hstep as <-.
    eexists. split_and!; [done|done|simpl; lia].
  - destruct (ipv4_addr !! i) as [ipv4|]; [|done].
    destruct (resolve_ipv4_to_ipv6 w ipv4); injection Hstep as <-;
      eexists; (split_and!; [done|done|simpl; lia]).
  - destruct (lock s); [done|]. injection Hstep as <-.
    eexists. split_and!; [done|done|simpl; lia].
  - injection Hstep as <-. eexists. split_and!; [done|done|simpl; lia].
  - injection Hstep as <-. eexists. split_and!; [done|done|].
    destruct ipv6 as [a|]; [destruct (truthy a)|]; simpl; lia.
  - injection Hstep as <-. eexists. split_and!; [done|done|simpl; lia].
  - injection Hstep as <-. eexists. split_and!; [done|done|simpl; lia].
  - injection Hstep as <-. eexists. split_and!; [done|done|simpl; lia].
  - destruct (proc_cnt s mod 10 =? 0); [destruct (truediv _ _)|];
      injection Hstep as <-; eexists; (split_and!; [done|done|simpl; lia]).
Qed.

Lemma turn_measure (i : nat) (s s' : state) :
  process_single_ip w ipv4_addr max_workers i s = Some s' →
  (measure s' < measure s)%nat.
Proof.
  intros (c & c' & Hi & Ht & Hlt)%turn_shape. unfold measure.
  rewrite Ht. pose proof (sum_list_insert remaining _ _ _ c' Hi). lia.
Qed.

(** Every run is finite: a schedule has at most nine turns per task. *)
Lemma exec_length (sched : list nat) (s s' : state) :
  exec w ipv4_addr max_workers sched s = Some s' →
  (length sched + measure s' ≤ measure s)%nat.
Proof.
  revert s. induction sched as [|i sched IH]; intros s Hexec; simpl in *.
  - injection Hexec as <-. lia.
  - destruct (process_single_ip w ipv4_addr max_workers i s) as [s1|] eqn:Hstep;
      [|done].
    apply IH in Hexec. apply turn_measure in Hstep. lia.
Qed.

Lemma first_unstarted (l : list pc) :
  forallb started l = false →
  ∃ i, l !! i = Some Queued ∧ forallb started (take i l) = true.
Proof.
  induction l as [|c l IH]; simpl; [done|].
  destruct (started c) eqn:Hc; simpl.
  - intros (i & Hi & Ht)%IH. exists (S i). simpl. by rewrite Hc.
  - intros _. exists 0%nat. by destruct c.
Qed.

Lemma idle_pool (l : list pc) :
  Forall (λ c, in_cs c = false) l → Forall (λ c, at_lock c = false) l →
  Forall (λ c, running c = false) l →
  count in_flight l = 0%nat
  ∧ (forallb is_done l = false → forallb started l = false).
Proof.
  intros H1 H2 H3. induction l as [|c l IH]; [done|].
  apply Forall_cons in H1 as [? ?], H2 as [? ?], H3 as [? ?].
  destruct IH as [IH1 IH2]; [done..|]. simpl. rewrite IH1.
  destruct c; simpl in *; try done; auto.
Qed.

(** No deadlock: while a task is unfinished, some task can move. *)
Lemma inv_progress (s : state) :
  0 < max_workers → inv w ipv4_addr s → all_done s = false →
  ∃ i s', process_single_ip w ipv4_addr max_workers i s = Some s'.
Proof.
  intros Hmw Hinv Hdone.
  pose proof Hinv as [Hpc Hlock _ _ _ _ _ _].
  destruct (lock s) eqn:Hl.
  - destruct (count_pos in_cs (tasks s)) as (i & c & Hi & Hc);
      [rewrite Hlock; lia|].
    exists i. unfold process_single_ip. rewrite Hi.
    destruct c; try done; eauto.
    destruct (proc_cnt s mod 10 =? 0); [destruct (truediv _ _)|]; eauto.
  - destruct (count at_lock (tasks s)) as [|n] eqn:Hat.
    2:{ destruct (count_pos at_lock (tasks s)) as (i & c & Hi & Hc);
          [lia|].
        exists i. unfold process_single_ip. rewrite Hi, Hl.
        destruct c; try done; eauto. }
    destruct (count running (tasks s)) as [|n] eqn:Hrun.
    2:{ destruct (count_pos running (tasks s)) as (i & c & Hi & Hc);
          [lia|].
        destruct (Forall2_lookup_r _ _ _ _ _ Hpc Hi) as (ipv4 & Hc' & _).
        exists i. unfold process_single_ip. rewrite Hi, Hc'.
        destruct c; try done. destruct (resolve_ipv4_to_ipv6 w ipv4); eauto. }
    apply count_none in Hlock, Hat, Hrun.
    destruct (idle_pool _ Hlock Hat Hrun) as [Hfl Hst].
    destruct (first_unstarted _ (Hst Hdone)) as (i & Hi & Ht).
    exists i. unfold process_single_ip. rewrite Hi, Ht, Hfl.
    change (Z.of_nat 0) with 0.
    rewrite (proj2 (Z.ltb_lt 0 max_workers) Hmw). eauto.
Qed.

(** Every state of the pool can be run to completion. *)
Lemma exec_complete (s : state) :
  0 < max_workers → inv w ipv4_addr s →
  ∃ sched s', exec w ipv4_addr max_workers sched s = Some s'
              ∧ all_done s' = true.
Proof.
  intros Hmw. remember (measure s) as n eqn:Hn. revert s Hn.
  induction n as [n IH] using lt_wf_ind. intros s -> Hinv.
  destruct (all_done s) eqn:Hdone.
  - by exists [], s.
  - destruct (inv_progress s Hmw Hinv Hdone) as (i & s1 & Hstep).
    destruct (IH (measure s1) (turn_measure _ _ _ Hstep) s1 eq_refl)
      as (sched & s' & Hexec & Hd); [by eapply turn_inv|].
    exists (i :: sched), s'. simpl. by rewrite Hstep.
Qed.

(** The shared variables change only in a turn of a task that is inside
    the [with lock:] block. *)
Lemma turn_mutation (i : nat) (s s' : state) :
  process_single_ip w ipv4_addr max_workers i s = Some s' →
  (proc_cnt s', found_cnt s', ipv6_results s')
  ≠ (proc_cnt s, found_cnt s, ipv6_results s) →
  ∃ c, tasks s !! i = Some c ∧ in_cs c = true.
Proof.
  unfold process_single_ip. intros Hstep Hne.
  destruct (tasks s !! i) as [c|] eqn:Hi; [|done]. exists c.
  split; [done|]. destruct c; try done.
  - destruct (_ && _); [|done]. by injection Hstep as <-.
  - destruct (ipv4_addr !! i) as [ipv4|]; [|done].
    by destruct (resolve_ipv4_to_ipv6 w ipv4); injection Hstep as <-.
  - destruct (lock s); [done|]. by injection Hstep as <-.
Qed.

End PoolInvariant.

(** ** Fan-in, writer and statistics *)

Lemma fan_in_ok (futures : list pc) :
  Forall (λ c, is_failed c = false) futures → fan_in futures = ([], Return tt).
Proof.
  induction 1 as [|c l Hc _ IH]; [done|].
  simpl. rewrite IH. by destruct c.
Qed.

Lemma fan_in_failed (futures : list pc) :
  Exists (λ c, is_failed c = true) futures →
  fan_in futures = ([], Raise TypeError).
Proof.
  induction futures as [|c l IH]; intros Hex.
  - by apply Exists_nil in Hex.
  - simpl. destruct (is_failed c) eqn:Hc.
    + by destruct c.
    + apply Exists_cons in Hex as [Hex|Hex]; [congruence|].
      rewrite (IH Hex). by destruct c.
Qed.

(** The order in which the futures are yielded does not matter. *)
Lemma fan_in_permutation (l l' : list pc) : l ≡ₚ l' → fan_in l = fan_in l'.
Proof.
  intros Hp.
  destruct (decide (Forall (λ c, is_failed c = false) l)) as [Hok|Hbad].
  - rewrite !fan_in_ok; [done| by rewrite <- Hp | done].
  - apply not_Forall_Exists in Hbad; [|apply _].
    assert (Exists (λ c, is_failed c = true) l) as Hex.
    { eapply Exists_impl; [done|]. simpl. intros c. by destruct (is_failed c). }
    rewrite !fan_in_failed; [done| by rewrite <- Hp | done].
Qed.

Lemma write_loop_ok (p : str) (rs : list str) :
  write_loop p None rs = ((λ a, EWrite p (a ++ [10%N])) <$> rs, Return tt).
Proof. induction rs as [|a rs IH]; [done|]. simpl. by rewrite IH. Qed.

Lemma write_results_ok (w : os) (p : str) (rs : list str) :
  write_fault w p = None → write_results w p rs = (written p rs, Return tt).
Proof. intros Hf. unfold write_results. by rewrite Hf, write_loop_ok. Qed.

Lemma write_loop_events (p : str) (fault : option (nat * exn))
    (rs : list str) :
  Forall (λ e, is_statistics e = false) (write_loop p fault rs).1.
Proof.
  revert fault. induction rs as [|a rs IH]; intros fault; simpl.
  - constructor.
  - destruct fault as [[[|k] e]|]; [constructor| |].
    + specialize (IH (Some (k, e))).
      destruct (write_loop p (Some (k, e)) rs) as [t []]; simpl in *;
        by constructor.
    + specialize (IH None).
      destruct (write_loop p None rs) as [t []]; simpl in *; by constructor.
Qed.

Lemma write_results_events (w : os) (p : str) (rs : list str) :
  Forall (λ e, is_statistics e = false) (write_results w p rs).1.
Proof.
  unfold write_results.
  destruct (write_fault w p) as [[[|k] e]|]; [constructor| |].
  - pose proof (write_loop_events p (Some (k, e)) rs) as H.
    destruct (write_loop p (Some (k, e)) rs) as [t []]; simpl in *;
      by constructor.
  - pose proof (write_loop_events p None rs) as H.
    destruct (write_loop p None rs) as [t []]; simpl in *; by constructor.
Qed.

Lemma print_statistics_cases (output_file : str) (s : state) :
  print_statistics output_file s
  = if proc_cnt s =? 0
    then ([EPrint MsgCompleted; EPrint (MsgTotal (proc_cnt s));
           EPrint (MsgFound (found_cnt s))], Raise ZeroDivisionError)
    else (statistics output_file (proc_cnt s) (found_cnt s), Return tt).
Proof.
  unfold print_statistics, truediv. by destruct (proc_cnt s =? 0).
Qed.

(** The end of a run, from the result of the fan-in and of the writer. *)
Lemma finish_cases (w : os) (output_file : str) (s : state) :
  finish w output_file s
  = match fan_in (completed s) with
    | (t0, Raise e) => (t0, Raise e)
    | (t0, Return _) =>
        match write_results w output_file (ipv6_results s) with
        | (t1, Raise e) => (t0 ++ t1, Raise TypeError)
        | (t1, Return _) =>
            if proc_cnt s =? 0
            then (t0 ++ t1 ++ [EPrint MsgCompleted; EPrint (MsgTotal (proc_cnt s));
                               EPrint (MsgFound (found_cnt s))],
                  Raise ZeroDivisionError)
            else (t0 ++ t1
                     ++ statistics output_file (proc_cnt s) (found_cnt s),
                  Return tt)
        end
    end.
Proof.
  unfold finish.
  destruct (fan_in (completed s)) as [t0 [[]|e]]; [|done].
  simpl.
  destruct (write_results w output_file (ipv6_results s)) as [t1 [[]|e]].
  - simpl. rewrite print_statistics_cases.
    destruct (proc_cnt s =? 0); by rewrite !app_nil_r.
  - simpl. by rewrite !app_nil_r.
Qed.

Lemma forallb_Forall {A} (p : A → bool) (l : list A) :
  forallb p l = true ↔ Forall (λ x, p x = true) l.
Proof.
  induction l as [|x l IH]; simpl.
  - split; [constructor | done].
  - rewrite andb_true_iff, Forall_cons, IH. done.
Qed.

Lemma done_part_all (l : list pc) :
  Forall (λ c, is_done c = true) l → l ≫= done_part = l.
Proof.
  induction 1 as [|c l Hc _ IH]; [done|].
  rewrite bind_cons, IH. unfold done_part. by rewrite Hc.
Qed.

Lemma truthy_nonempty (a : str) : a ≠ [] → truthy a = true.
Proof. by destruct a. Qed.

(** When every task has completed and every call of the resolver returned,
    the tasks have counted and collected what the resolver found. *)
Lemma finished_results (w : os) (ipv4_addr : list str) (l : list pc) :
  Forall2 (pc_ok w) ipv4_addr l →
  Forall (λ c, is_done c = true) l →
  Forall (λ c, raises (resolve_ipv4_to_ipv6 w c) = false) ipv4_addr →
  Forall (λ a, a ≠ []) (resolved w ipv4_addr) →
  l ≫= appended = resolved w ipv4_addr
  ∧ count past_found l = length (resolved w ipv4_addr)
  ∧ count past_proc l = length ipv4_addr
  ∧ Forall (λ c, is_failed c = false) l.
Proof.
  induction 1 as [|ipv4 c cands l Hok _ IH]; intros Hdone Hret Hne.
  - done.
  - apply Forall_cons in Hdone as [Hc Hdone], Hret as [Hr Hret].
    rewrite bind_cons.
    assert (resolved w (ipv4 :: cands)
            = match resolve_ipv4_to_ipv6 w ipv4 with
              | Return (Some a) => a :: resolved w cands
              | _ => resolved w cands
              end) as Hres.
    { unfold resolved. simpl.
      by destruct (resolve_ipv4_to_ipv6 w ipv4) as [[a|]|]. }
    rewrite Hres in Hne |- *. clear Hres.
    destruct c; try done; simpl in Hok; rewrite Hok in Hr, Hne |- *;
      [|done].
    destruct ipv6 as [a|].
    + apply Forall_cons in Hne as [Ha Hne].
      destruct (IH Hdone Hret Hne) as (IH1 & IH2 & IH3 & IH4).
      simpl. rewrite (truthy_nonempty a Ha), IH1, IH2, IH3. simpl.
      split_and!; try done. by constructor.
    + destruct (IH Hdone Hret Hne) as (IH1 & IH2 & IH3 & IH4).
      simpl. rewrite IH1, IH2, IH3. split_and!; try done. by constructor.
Qed.

(** When every task has returned, each has counted itself. *)
Lemma returned_processed (l : list pc) :
  Forall (λ c, is_done c = true) l → Forall (λ c, is_failed c = false) l →
  count past_proc l = length l.
Proof.
  intros Hd Hf. apply count_all. apply Forall_forall. intros c Hc.
  eapply Forall_forall in Hd; [|done]. eapply Forall_forall in Hf; [|done].
  by destruct c.
Qed.

(** ** Files *)

Lemma replay_app (t1 t2 : list event) (fs : gmap str str) :
  replay (t1 ++ t2) fs = replay t2 (replay t1 fs).
Proof. apply foldl_app. Qed.

Lemma replay_cons (e : event) (t : list event) (fs : gmap str str) :
  replay (e :: t) fs = replay t (apply_event fs e).
Proof. done. Qed.

Lemma replay_no_file (t : list event) (fs : gmap str str) :
  Forall (λ e, is_file_event e = false) t → replay t fs = fs.
Proof.
  intros Ht. revert fs. induction Ht as [|e t He _ IH]; intros fs; [done|].
  rewrite replay_cons, IH. by destruct e.
Qed.

Lemma replay_writes (p : str) (rs : list str) (fs : gmap str str) (c : str) :
  fs !! p = Some c →
  replay ((λ a, EWrite p (a ++ [10%N])) <$> rs) fs !! p
  = Some (c ++ (rs ≫= λ a, a ++ [10%N])).
Proof.
  revert fs c. induction rs as [|a rs IH]; intros fs c Hc.
  - simpl. by rewrite app_nil_r.
  - rewrite fmap_cons, bind_cons, replay_cons.
    rewrite (IH _ (c ++ a ++ [10%N])); [by rewrite <- app_assoc|].
    simpl. by rewrite Hc, lookup_insert_eq.
Qed.

Lemma replay_written (p : str) (rs : list str) (fs : gmap str str) :
  replay (written p rs) fs !! p = Some (rs ≫= λ a, a ++ [10%N]).
Proof.
  unfold written. rewrite replay_cons.
  rewrite (replay_writes p rs _ []); [done|].
  simpl. by rewrite lookup_insert_eq.
Qed.

Lemma lines_from_line (cur a rest : str) :
  10%N ∉ a →
  lines_from cur (a ++ 10%N :: rest) = (reverse cur ++ a) :: lines_from [] rest.
Proof.
  revert cur. induction a as [|c a IH]; intros cur Ha; simpl.
  - by rewrite app_nil_r.
  - apply not_elem_of_cons in Ha as [Hc Ha].
    rewrite (proj2 (N.eqb_neq c 10)) by done.
    rewrite IH by done. by rewrite reverse_cons, <- app_assoc.
Qed.

Lemma file_lines_joined (rs : list str) :
  Forall (λ a, 10%N ∉ a) rs → file_lines (rs ≫= λ a, a ++ [10%N]) = rs.
Proof.
  unfold file_lines. induction 1 as [|a rs Ha _ IH]; [done|].
  rewrite bind_cons, <- app_assoc. simpl.
  rewrite lines_from_line by done. by rewrite IH.
Qed.

Lemma event_ok_no_file (ipv4_addr : list str) (e : event) :
  event_ok ipv4_addr e → is_file_event e = false ∧ is_statistics e = false.
Proof. destruct e as [[]| | |]; simpl; done. Qed.

(** ** The whole run *)

(** How a run ends once the pool has completed: a failed task makes the
    handler of line 116 raise; otherwise every task has counted itself and
    the writer decides. *)
Lemma pool_run_cases (w : os) (ipv4_addr : list str) (output_file : str)
    (s : state) :
  ipv4_addr ≠ [] → inv w ipv4_addr s → all_done s = true →
  (Exists (λ c, is_failed c = true) (tasks s)
   ∧ finish w output_file s = ([], Raise TypeError))
  ∨ (Forall (λ c, is_failed c = false) (tasks s)
     ∧ proc_cnt s = Z.of_nat (length ipv4_addr)
     ∧ finish w output_file s
       = match write_results w output_file (ipv6_results s) with
         | (t1, Raise e) => (t1, Raise TypeError)
         | (t1, Return _) =>
             (t1 ++ statistics output_file (proc_cnt s) (found_cnt s),
              Return tt)
         end).
Proof.
  intros Hne Hinv Hdone. apply forallb_Forall in Hdone.
  pose proof (inv_completed _ _ _ Hinv) as Hcomp.
  rewrite (done_part_all _ Hdone) in Hcomp.
  rewrite finish_cases.
  destruct (decide (Forall (λ c, is_failed c = false) (tasks s))) as [Hok|Hbad].
  - right. split; [done|].
    assert (proc_cnt s = Z.of_nat (length ipv4_addr)) as Hproc.
    { rewrite (inv_proc _ _ _ Hinv), (returned_processed _ Hdone Hok).
      by rewrite (Forall2_length _ _ _ (inv_pc _ _ _ Hinv)). }
    split; [done|].
    rewrite fan_in_ok by (by rewrite Hcomp).
    destruct (write_results _ _ _) as [t1 [[]|e]]; [|done].
    rewrite (proj2 (Z.eqb_neq (proc_cnt s) 0)); [done|].
    rewrite Hproc. destruct ipv4_addr; [done|]. simpl. lia.
  - left. apply not_Forall_Exists in Hbad; [|apply _].
    assert (Exists (λ c, is_failed c = true) (tasks s)) as Hex.
    { eapply Exists_impl; [done|]. simpl. intros c.
      by destruct (is_failed c). }
    split; [done|]. rewrite fan_in_failed by (by rewrite Hcomp). done.
Qed.

(** A run that reaches the pool. *)
Lemma process_pool (w : os) (sched : list nat) (input_file output_file : str)
    (max_workers : Z) (f : list str) (t : list event) (r : result unit) :
  open_read w input_file = Return f → read_loop f [] ≠ [] → 0 < max_workers →
  process_ipv4_list w sched input_file output_file max_workers = Some (t, r) →
  ∃ s t',
    exec w (read_loop f []) max_workers sched (init (read_loop f [])) = Some s
    ∧ all_done s = true ∧ inv w (read_loop f []) s
    ∧ finish w output_file s = (t', r)
    ∧ t = EPrint (MsgProcessing (length (read_loop f []))) :: trace s ++ t'.
Proof.
  intros Hopen Hne Hmw. unfold process_ipv4_list. rewrite Hopen.
  destruct (read_loop f []) as [|c cands] eqn:Hcands; [done|].
  rewrite (proj2 (Z.leb_gt max_workers 0) Hmw).
  destruct (exec _ _ _ _ _) as [s|] eqn:Hexec; [|done].
  destruct (all_done s) eqn:Hdone; [|done].
  intros [= Hfin]. exists s.
  destruct (finish w output_file s) as [t' r'] eqn:Hf. exists t'.
  simpl in Hfin. injection Hfin as <- <-.
  split_and!; try done.
  eapply exec_inv; [done| |done]. by apply init_inv.
Qed.

Lemma appended_outside (l : list pc) :
  Forall (λ c, in_cs c = false) l →
  length (l ≫= appended) = count past_found l.
Proof.
  induction 1 as [|c l Hc _ IH]; [done|].
  rewrite bind_cons, length_app, IH. simpl. f_equal.
  destruct c as [| | | | | | | | |[a|]|]; try done. simpl.
  by destruct (truthy a).
Qed.

(** C3. In every state the pool can reach: at most one task is inside the
    [with lock:] block, and the lock is held exactly then; a turn that
    changes a counter or the result list is a turn of that task; no update
    is lost, each counter being the number of tasks that have stored their
    increment, and the list holding what the tasks have appended; the found
    count never exceeds the processed count, also in every progress line
    printed; and whenever the lock is free the found count is the length of
    the result list. *)
Theorem critical_section (w : os) (ipv4_addr : list str) (max_workers : Z)
    (sched : list nat) (s : state) :
  ipv4_addr ≠ [] →
  exec w ipv4_addr max_workers sched (init ipv4_addr) = Some s →
  (∀ i j ci cj, tasks s !! i = Some ci → tasks s !! j = Some cj →
                in_cs ci = true → in_cs cj = true → i = j)
  ∧ (lock s = true ↔ ∃ i c, tasks s !! i = Some c ∧ in_cs c = true)
  ∧ (∀ i s', process_single_ip w ipv4_addr max_workers i s = Some s' →
             (proc_cnt s', found_cnt s', ipv6_results s')
             ≠ (proc_cnt s, found_cnt s, ipv6_results s) →
             lock s = true ∧ ∃ c, tasks s !! i = Some c ∧ in_cs c = true)
  ∧ proc_cnt s = Z.of_nat (count past_proc (tasks s))
  ∧ found_cnt s = Z.of_nat (count past_found (tasks s))
  ∧ ipv6_results s ≡ₚ tasks s ≫= appended
  ∧ 0 ≤ found_cnt s ≤ proc_cnt s
  ∧ (lock s = false → found_cnt s = Z.of_nat (length (ipv6_results s)))
  ∧ (∀ r f, EPrint (MsgProgress r f) ∈ trace s →
            ∃ p, r = (inject_Z p / inject_Z (Z.of_nat (length ipv4_addr)))%Q
                 ∧ 0 ≤ f ≤ p ∧ p ≤ Z.of_nat (length ipv4_addr)).
Proof.
  intros Hne Hexec.
  assert (inv w ipv4_addr s) as Hinv
    by (eapply exec_inv; [done|by apply init_inv|done]).
  pose proof Hinv as [Hpc Hlock Hproc Hfound Htmp Hres Hcomp Htr].
  split_and!.
  - intros i j ci cj. by apply (inv_mutex w ipv4_addr).
  - split.
    + intros Hl. rewrite Hl in Hlock.
      destruct (count_pos in_cs (tasks s)) as (i & c & ? & ?); [lia|eauto].
    + intros (i & c & Hi & Hc). by eapply inv_lock_held.
  - intros i s' Hstep Hmut.
    destruct (turn_mutation _ _ _ _ _ _ Hstep Hmut) as (c & Hi & Hc).
    split; [by eapply inv_lock_held | eauto].
  - done.
  - done.
  - done.
  - rewrite Hfound. lia.
  - rewrite Hfound, Hproc. apply inj_le, count_mono, past_found_proc.
  - intros Hl. rewrite Hl in Hlock. apply count_none in Hlock.
    by rewrite Hfound, Hres, appended_outside.
  - intros r f Hin. eapply Forall_forall in Htr; [|done].
    destruct Htr as (p & -> & ? & ? & ?). eauto.
Qed.

Lemma critical_section_witness :
  ∃ s, exec Sample.sys [lit "1.1.1.1"; lit "8.8.8.8"] 20
         [0; 0; 0; 0; 0; 1; 1]%nat (init [lit "1.1.1.1"; lit "8.8.8.8"])
       = Some s
       ∧ lock s = true ∧ 0 ≤ found_cnt s ≤ proc_cnt s.
Proof.
  eexists. split; [vm_compute; reflexivity|]. split; [reflexivity|].
  destruct (critical_section Sample.sys [lit "1.1.1.1"; lit "8.8.8.8"] 20
              [0; 0; 0; 0; 0; 1; 1]%nat _ ltac:(discriminate)
              ltac:(vm_compute; reflexivity))
    as (_ & _ & _ & _ & _ & _ & Hle & _).
  exact Hle.
Defined.

Lemma read_loop_skipped (f : list str) :
  Forall (λ line, strip line = []
                  ∨ startswith (strip line) (lit "#") = true) f →
  read_loop f [] = [].
Proof.
  intros Hf. rewrite read_loop_acc. simpl. unfold candidates_spec.
  induction Hf as [|line f Hline _ IH]; [done|].
  rewrite fmap_cons, filter_cons, IH.
  rewrite decide_False; [done|].
  rewrite startswith_hash in Hline.
  destruct (strip line) as [|c t]; simpl; [done|].
  destruct Hline as [?| ->]; done.
Qed.

(** C8. When the input file is missing, or is empty or holds only blank
    and comment lines, every run prints one message and returns: no
    candidate is looked up, the output file is not opened or written, and
    the files are what they were. *)
Theorem abort_without_output (w : os) (sched : list nat)
    (input_file output_file : str) (max_workers : Z) :
  open_read w input_file = Raise FileNotFoundError
  ∨ (∃ f, open_read w input_file = Return f
          ∧ Forall (λ line, strip line = []
                            ∨ startswith (strip line) (lit "#") = true) f) →
  ∃ m, (m = MsgInputNotFound input_file ∨ m = MsgNoAddresses)
       ∧ process_ipv4_list w sched input_file output_file max_workers
         = Some ([EPrint m], Return tt)
       ∧ ∀ fs, replay [EPrint m] fs = fs.
Proof.
  intros [Hmiss|(f & Hf & Hskip)]; unfold process_ipv4_list.
  - rewrite Hmiss. simpl. eauto.
  - rewrite Hf, (read_loop_skipped f Hskip). eauto.
Qed.

Lemma abort_without_output_witness :
  ∃ m, (m = MsgInputNotFound (lit "comments.ipv4") ∨ m = MsgNoAddresses)
       ∧ process_ipv4_list Sample.sys [] (lit "comments.ipv4")
           (lit "list.ipv6") 20
         = Some ([EPrint m], Return tt)
       ∧ ∀ fs, replay [EPrint m] fs = fs.
Proof.
  apply (abort_without_output Sample.sys [] (lit "comments.ipv4")
           (lit "list.ipv6") 20).
  right. eexists. split; [reflexivity|].
  apply Forall_cons. split; [right; reflexivity|].
  apply Forall_cons. split; [left; reflexivity|].
  apply Forall_nil_2.
Defined.

Lemma no_statistics_total (t : list event) (p : Z) :
  Forall (λ e, is_statistics e = false) t → EPrint (MsgTotal p) ∉ t.
Proof.
  intros Ht Hin. eapply Forall_forall in Ht; [|done]. done.
Qed.

(** C9. No run ends in a division by zero, and whenever the statistics
    are printed the processed count shown is at least 1: with no candidate
    the function returns before the pool starts, and the statistics are
    reached only after every task has counted itself. *)
Theorem success_rate_defined (w : os) (sched : list nat)
    (input_file output_file : str) (max_workers : Z)
    (t : list event) (r : result unit) :
  process_ipv4_list w sched input_file output_file max_workers = Some (t, r) →
  r ≠ Raise ZeroDivisionError
  ∧ ∀ p, EPrint (MsgTotal p) ∈ t → 1 ≤ p.
Proof.
  intros Hrun.
  destruct (open_read w input_file) as [f|e] eqn:Hopen.
  2:{ unfold process_ipv4_list in Hrun. rewrite Hopen in Hrun.
      destruct (is_FileNotFoundError e); injection Hrun as <- <-;
        (split; [done|]); intros p Hin;
        (apply (no_statistics_total _ p) in Hin; [done | by repeat constructor]). }
  destruct (read_loop f []) as [|c cands] eqn:Hcands.
  { unfold process_ipv4_list in Hrun. rewrite Hopen, Hcands in Hrun.
    injection Hrun as <- <-. split; [done|]. intros p Hin.
    apply (no_statistics_total _ p) in Hin; [done | by repeat constructor]. }
  destruct (decide (0 < max_workers)) as [Hmw|Hmw].
  2:{ unfold process_ipv4_list in Hrun. rewrite Hopen, Hcands in Hrun.
      rewrite (proj2 (Z.leb_le max_workers 0)) in Hrun by lia.
      injection Hrun as <- <-. split; [done|]. intros p Hin.
      apply (no_statistics_total _ p) in Hin; [done | by repeat constructor]. }
  destruct (process_pool _ _ _ _ _ _ _ _ Hopen ltac:(by rewrite Hcands) Hmw Hrun)
    as (s & t' & Hexec & Hdone & Hinv & Hfin & ->).
  rewrite Hcands in *.
  assert (Forall (λ e, is_statistics e = false) (trace s)) as Htr.
  { eapply Forall_impl; [apply (inv_trace _ _ _ Hinv)|].
    intros e He. by apply event_ok_no_file in He as [_ ?]. }
  destruct (pool_run_cases w (c :: cands) output_file s ltac:(done) Hinv Hdone)
    as [[_ Hf]|(_ & Hproc & Hf)]; rewrite Hf in Hfin.
  - injection Hfin as <- <-. split; [done|]. intros p Hin.
    apply (no_statistics_total _ p) in Hin; [done|].
    constructor; [done|]. by rewrite app_nil_r.
  - pose proof (write_results_events w output_file (ipv6_results s)) as Hw.
    destruct (write_results _ _ _) as [t1 [[]|e]]; injection Hfin as <- <-;
      simpl in Hw.
    + split; [done|]. intros p Hin.
      apply elem_of_cons in Hin as [?|Hin]; [done|].
      apply elem_of_app in Hin as [Hin|Hin];
        [by apply (no_statistics_total _ p) in Hin|].
      apply elem_of_app in Hin as [Hin|Hin];
        [by apply (no_statistics_total _ p) in Hin|].
      unfold statistics in Hin.
      apply elem_of_cons in Hin as [?|Hin]; [done|].
      apply elem_of_cons in Hin as [[= ->]|Hin].
      { rewrite Hproc. simpl. lia. }
      repeat (apply elem_of_cons in Hin as [?|Hin]; [done|]).
      by apply elem_of_nil in Hin.
    + split; [done|]. intros p Hin.
      apply (no_statistics_total _ p) in Hin; [done|].
      constructor; [done|]. by apply Forall_app.
Qed.

Lemma success_rate_defined_witness :
  Return tt ≠ Raise ZeroDivisionError
  ∧ ∀ p, EPrint (MsgTotal p)
         ∈ [EPrint (MsgProcessing 1); ELookup (lit "1.1.1.1");
            EOpenWrite (lit "list.ipv6");
            EWrite (lit "list.ipv6") (lit "2606::1111" ++ [10%N]);
            EPrint MsgCompleted; EPrint (MsgTotal 1); EPrint (MsgFound 1);
            EPrint (MsgRate (inject_Z 1 / inject_Z 1 * 100)%Q);
            EPrint (MsgSaved (lit "list.ipv6"))] → 1 ≤ p.
Proof.
  apply (success_rate_defined Sample.sys (Sample.turns_found 0)
           (lit "one.ipv4") (lit "list.ipv6") 20).
  reflexivity.
Defined.

(** Some schedule completes the run: the function has a result on every
    input, and no schedule is longer than nine turns per candidate. *)
Lemma process_ipv4_list_total (w : os) (input_file output_file : str)
    (max_workers : Z) :
  ∃ sched fin,
    process_ipv4_list w sched input_file output_file max_workers = Some fin.
Proof.
  unfold process_ipv4_list.
  destruct (open_read w input_file) as [f|e].
  2:{ exists []. destruct (is_FileNotFoundError e); eauto. }
  destruct (read_loop f []) as [|c cands] eqn:Hcands; [by exists []; eauto|].
  destruct (max_workers <=? 0) eqn:Hmw; [by exists []; eauto|].
  apply Z.leb_gt in Hmw.
  destruct (exec_complete w (c :: cands) max_workers ltac:(done)
              (init (c :: cands)) Hmw (init_inv w (c :: cands)))
    as (sched & s & Hexec & Hdone).
  exists sched. rewrite Hexec, Hdone. eauto.
Qed.

(** C4, amended. Take a run over a non-empty candidate list with a positive
    worker limit, in which every call of the resolver returns, every
    address found is a non-empty string without a line feed, and the
    output file is written without error.  Once all tasks have completed,
    the processed count is the number of candidates, the found count is the
    number of resolved candidates, the result list holds their addresses
    (in some order); the function returns after printing these counts, and
    the output file consists of exactly that many lines, one address
    each. *)
Theorem run_totals (w : os) (sched : list nat) (input_file output_file : str)
    (max_workers : Z) (f : list str) (t : list event) (r : result unit) :
  open_read w input_file = Return f →
  read_loop f [] ≠ [] →
  0 < max_workers →
  Forall (λ c, raises (resolve_ipv4_to_ipv6 w c) = false) (read_loop f []) →
  Forall (λ a, a ≠ [] ∧ 10%N ∉ a) (resolved w (read_loop f [])) →
  write_fault w output_file = None →
  process_ipv4_list w sched input_file output_file max_workers = Some (t, r) →
  ∃ s,
    exec w (read_loop f []) max_workers sched (init (read_loop f [])) = Some s
    ∧ all_done s = true
    ∧ proc_cnt s = Z.of_nat (length (read_loop f []))
    ∧ found_cnt s = Z.of_nat (length (resolved w (read_loop f [])))
    ∧ ipv6_results s ≡ₚ resolved w (read_loop f [])
    ∧ r = Return tt
    ∧ t = EPrint (MsgProcessing (length (read_loop f []))) :: trace s
          ++ written output_file (ipv6_results s)
          ++ statistics output_file (proc_cnt s) (found_cnt s)
    ∧ ∀ fs, ∃ content,
        replay t fs !! output_file = Some content
        ∧ file_lines content = ipv6_results s
        ∧ Z.of_nat (length (file_lines content)) = found_cnt s.
Proof.
  intros Hopen Hne Hmw Hret Haddr Hwrite Hrun.
  destruct (process_pool _ _ _ _ _ _ _ _ Hopen Hne Hmw Hrun)
    as (s & t' & Hexec & Hdone & Hinv & Hfin & ->).
  exists s.
  pose proof Hinv as [Hpc _ Hproc Hfound _ Hres _ Htr].
  pose proof (proj1 (forallb_Forall _ _) Hdone) as Hd.
  destruct (finished_results w _ _ Hpc Hd Hret) as (Happ & Hcf & Hcp & Hnf).
  { eapply Forall_impl; [done|]. by intros a [? _]. }
  rewrite Happ in Hres. rewrite Hcf in Hfound. rewrite Hcp in Hproc.
  destruct (pool_run_cases w _ output_file s Hne Hinv Hdone)
    as [[Hex _]|(_ & _ & Hf)].
  { apply Exists_exists in Hex as (c & Hc & Hfail).
    eapply Forall_forall in Hnf; [|done]. congruence. }
  rewrite write_results_ok in Hf by done. rewrite Hf in Hfin.
  injection Hfin as <- <-.
  split_and!; try done.
  intros fs. exists (ipv6_results s ≫= λ a, a ++ [10%N]).
  assert (file_lines (ipv6_results s ≫= λ a, a ++ [10%N]) = ipv6_results s)
    as Hlines.
  { apply file_lines_joined. rewrite Hres.
    eapply Forall_impl; [done|]. by intros a [_ ?]. }
  split_and!.
  - rewrite replay_cons, replay_app.
    change (replay (written output_file (ipv6_results s)
                    ++ statistics output_file (proc_cnt s) (found_cnt s))
              (replay (trace s)
                 (apply_event fs
                    (EPrint (MsgProcessing (length (read_loop f []))))))
            !! output_file
            = Some (ipv6_results s ≫= λ a, a ++ [10%N])).
    rewrite replay_app.
    rewrite (replay_no_file (statistics _ _ _)) by (by repeat constructor).
    apply replay_written.
  - done.
  - rewrite Hlines, Hfound. by rewrite Hres.
Qed.

Lemma run_totals_witness :
  ∃ s,
    exec Sample.sys [lit "1.1.1.1"; lit "8.8.8.8"] 20
      (Sample.turns_found 0 ++ Sample.turns_none 1)
      (init [lit "1.1.1.1"; lit "8.8.8.8"]) = Some s
    ∧ proc_cnt s = 2 ∧ found_cnt s = 1
    ∧ ipv6_results s ≡ₚ [lit "2606::1111"].
Proof.
  destruct (run_totals Sample.sys (Sample.turns_found 0 ++ Sample.turns_none 1)
              (lit "list.ipv4") (lit "list.ipv6") 20 Sample.input
              [EPrint (MsgProcessing 2); ELookup (lit "1.1.1.1");
               ELookup (lit "8.8.8.8"); EOpenWrite (lit "list.ipv6");
               EWrite (lit "list.ipv6") (lit "2606::1111" ++ [10%N]);
               EPrint MsgCompleted; EPrint (MsgTotal 2); EPrint (MsgFound 1);
               EPrint (MsgRate (inject_Z 1 / inject_Z 2 * 100)%Q);
               EPrint (MsgSaved (lit "list.ipv6"))]
              (Return tt))
    as (s & Hexec & _ & Hproc & Hfound & Hres & _).
  - reflexivity.
  - discriminate.
  - reflexivity.
  - repeat constructor.
  - vm_compute. repeat constructor; try discriminate.
    intros Hin. repeat (apply elem_of_cons in Hin as [Hin|Hin]; [discriminate Hin|]).
    by apply elem_of_nil in Hin.
  - reflexivity.
  - reflexivity.
  - exists s. split; [exact Hexec|]. split; [exact Hproc|].
    split; [exact Hfound|exact Hres].
Defined.

(** C4, as stated, fails in two ways.  A task whose resolver call raises
    completes without counting itself: after all tasks have completed the
    processed count is 1 for 2 candidates.  And when the output file cannot
    be opened, one address is found and no file is written. *)
Lemma run_totals_fail :
  (∃ s, exec Sample.sys [lit "1.1.1.1"; lit "a..b"] 20
          (Sample.turns_found 0 ++ [1; 1]%nat)
          (init [lit "1.1.1.1"; lit "a..b"]) = Some s
        ∧ all_done s = true
        ∧ proc_cnt s ≠ Z.of_nat (length [lit "1.1.1.1"; lit "a..b"]))
  ∧ (∃ s t r, exec Sample.sys [lit "1.1.1.1"] 20 (Sample.turns_found 0)
                (init [lit "1.1.1.1"]) = Some s
              ∧ all_done s = true ∧ found_cnt s = 1
              ∧ process_ipv4_list Sample.sys (Sample.turns_found 0)
                  (lit "one.ipv4") (lit "readonly.ipv6") 20 = Some (t, r)
              ∧ replay t ∅ !! lit "readonly.ipv6" = None).
Proof.
  split.
  - eexists. split; [vm_compute; reflexivity|].
    split; [reflexivity|]. discriminate.
  - eexists _, _, _. split; [vm_compute; reflexivity|].
    split; [reflexivity|]. split; [reflexivity|].
    split; [vm_compute; reflexivity|]. reflexivity.
Qed.

Lemma failed_task_present (w : os) (ipv4_addr : list str) (l : list pc) :
  Forall2 (pc_ok w) ipv4_addr l →
  Forall (λ c, is_done c = true) l →
  Exists (λ c, raises (resolve_ipv4_to_ipv6 w c) = true) ipv4_addr →
  Exists (λ c, is_failed c = true) l.
Proof.
  induction 1 as [|ipv4 c cands l Hok _ IH]; intros Hdone Hex.
  - by apply Exists_nil in Hex.
  - apply Forall_cons in Hdone as [Hc Hdone].
    apply Exists_cons in Hex as [Hr|Hex].
    + apply Exists_cons_hd. destruct c; try done.
      simpl in Hok. by rewrite Hok in Hr.
    + apply Exists_cons_tl. by apply IH.
Qed.

(** When the resolver raises for some candidate, every run ends with the
    [TypeError] of line 116 leaving the function, the output file
    untouched. *)
Lemma failed_task_aborts (w : os) (sched : list nat)
    (input_file output_file : str) (max_workers : Z) (f : list str)
    (t : list event) (r : result unit) :
  open_read w input_file = Return f →
  0 < max_workers →
  Exists (λ c, raises (resolve_ipv4_to_ipv6 w c) = true) (read_loop f []) →
  process_ipv4_list w sched input_file output_file max_workers = Some (t, r) →
  r = Raise TypeError ∧ ∀ fs, replay t fs = fs.
Proof.
  intros Hopen Hmw Hex Hrun.
  assert (read_loop f [] ≠ []) as Hne.
  { intros Hnil. rewrite Hnil in Hex. by apply Exists_nil in Hex. }
  destruct (process_pool _ _ _ _ _ _ _ _ Hopen Hne Hmw Hrun)
    as (s & t' & Hexec & Hdone & Hinv & Hfin & ->).
  pose proof (proj1 (forallb_Forall _ _) Hdone) as Hd.
  pose proof (failed_task_present _ _ _ (inv_pc _ _ _ Hinv) Hd Hex) as Hfail.
  destruct (pool_run_cases w _ output_file s Hne Hinv Hdone)
    as [[_ Hf]|(Hnf & _)].
  - rewrite Hf in Hfin. injection Hfin as <- <-. split; [done|].
    intros fs. rewrite replay_cons, app_nil_r. simpl.
    apply replay_no_file. eapply Forall_impl; [apply (inv_trace _ _ _ Hinv)|].
    intros e He. by apply event_ok_no_file in He as [? _].
  - apply Exists_exists in Hfail as (c & Hc & Hcf).
    eapply Forall_forall in Hnf; [|done]. congruence.
Qed.

(** C6, at the failing input: of two candidates the first resolves and the
    second makes the resolver raise [UnicodeError].  The handler of
    line 116 raises [TypeError] while building its message; nothing is
    logged, the error leaves [process_ipv4_list], and the address found for
    the first candidate is never written. *)
Theorem fan_in_handler_raises :
  process_ipv4_list Sample.sys (Sample.turns_found 0 ++ [1; 1]%nat)
    (lit "mixed.ipv4") (lit "list.ipv6") 20
  = Some ([EPrint (MsgProcessing 2); ELookup (lit "1.1.1.1");
           ELookup (lit "a..b")], Raise TypeError).
Proof. vm_compute. reflexivity. Qed.

(** An input file that cannot be read for another reason than its absence
    makes the handler of line 71 raise. *)
Lemma read_error_propagates (w : os) (sched : list nat)
    (input_file output_file : str) (max_workers : Z) (e : exn) :
  open_read w input_file = Raise e → is_FileNotFoundError e = false →
  process_ipv4_list w sched input_file output_file max_workers
  = Some ([], Raise TypeError).
Proof. intros He Hf. unfold process_ipv4_list. by rewrite He, Hf. Qed.

(** C7, at the failing inputs: an input file that exists and cannot be
    opened, and an output file that cannot be opened.  In both runs the
    handler (line 71, line 126) raises [TypeError] while building its
    message: no message is printed and the error leaves
    [process_ipv4_list]. *)
Theorem io_handlers_raise :
  process_ipv4_list Sample.sys [] (lit "locked.ipv4") (lit "list.ipv6") 20
  = Some ([], Raise TypeError)
  ∧ process_ipv4_list Sample.sys (Sample.turns_found 0) (lit "one.ipv4")
      (lit "readonly.ipv6") 20
    = Some ([EPrint (MsgProcessing 1); ELookup (lit "1.1.1.1")],
            Raise TypeError).
Proof. split; vm_compute; reflexivity. Qed.

(** * Further properties *)

(** ** Resolver *)

(** X1. An exception that leaves the resolver is never an [OSError]; it is
    the exception one of the two lookups raised: the resolver raises
    nothing of its own. *)
Theorem resolve_raise_origin (w : os) (candidate : str) (e : exn) :
  resolve_ipv4_to_ipv6 w candidate = Raise e →
  is_OSError e = false
  ∧ (gethostbyaddr w candidate = Raise e
     ∨ ∃ hostname aliases ips,
         gethostbyaddr w candidate = Return (hostname, aliases, ips)
         ∧ getaddrinfo w hostname = Raise e).
Proof.
  unfold resolve_ipv4_to_ipv6.
  destruct (gethostbyaddr w candidate) as [[[hostname aliases] ips]|e1].
  - destruct (getaddrinfo w hostname) as [addr_info|e2] eqn:Ha.
    + by destruct (extract_loop addr_info []).
    + rewrite resolve_handles_OSError.
      destruct (is_OSError e2) eqn:He; [done|]. intros [= <-].
      split; [done|]. right. eauto.
  - rewrite resolve_handles_OSError.
    destruct (is_OSError e1) eqn:He; [done|]. intros [= <-]. by split; [|left].
Qed.

Lemma resolve_raise_origin_witness :
  is_OSError UnicodeError = false
  ∧ (gethostbyaddr Sample.sys (lit "a..b") = Raise UnicodeError
     ∨ ∃ hostname aliases ips,
         gethostbyaddr Sample.sys (lit "a..b")
         = Return (hostname, aliases, ips)
         ∧ getaddrinfo Sample.sys hostname = Raise UnicodeError).
Proof.
  apply (resolve_raise_origin Sample.sys (lit "a..b") UnicodeError).
  reflexivity.
Defined.

(** ** Input Loader *)

Lemma candidates_spec_app (f1 f2 : list str) :
  candidates_spec (f1 ++ f2) = candidates_spec f1 ++ candidates_spec f2.
Proof. unfold candidates_spec. by rewrite fmap_app, filter_app. Qed.

(** X2. Loading the concatenation of two files gives the candidates of the
    first followed by the candidates of the second; with candidates already
    collected, the loop appends to them. *)
Theorem loader_concatenation (f1 f2 acc : list str) :
  read_loop (f1 ++ f2) [] = read_loop f1 [] ++ read_loop f2 []
  ∧ read_loop (f1 ++ f2) acc = read_loop f2 (read_loop f1 acc).
Proof.
  rewrite !read_loop_acc. simpl. by rewrite candidates_spec_app, <- app_assoc.
Qed.

Lemma strip_head (s : str) (d : N) (t : str) :
  strip s = d :: t → isspace d = false.
Proof.
  unfold strip, rstrip. destruct (lstrip s) as [|c u] eqn:Hs; [done|].
  apply lstrip_head in Hs as Hc.
  rewrite reverse_cons, lstrip_snoc, reverse_app by done.
  by intros [= <- _].
Qed.

Lemma strip_line_feed (s : str) : strip (strip s ++ [10%N]) = strip s.
Proof.
  pose proof (strip_idemp s) as Hid.
  destruct (strip s) as [|d t] eqn:Hs; [done|].
  apply strip_head in Hs as Hd.
  unfold strip, rstrip in Hid |- *. simpl in Hid |- *. rewrite Hd in Hid |- *.
  change (d :: t ++ [10%N]) with ((d :: t) ++ [10%N]).
  rewrite reverse_app. exact Hid.
Qed.

Lemma kept_candidates (f : list str) :
  filter (λ l, kept l = true) (candidates_spec f) = candidates_spec f.
Proof.
  unfold candidates_spec. rewrite list_filter_filter.
  apply list_filter_iff. tauto.
Qed.

(** X3. The loader is stable: writing the candidates of a file one per
    line and loading them again gives the same candidates. *)
Theorem loader_reload (f : list str) :
  read_loop ((λ c, c ++ [10%N]) <$> read_loop f []) [] = read_loop f [].
Proof.
  rewrite !read_loop_acc. simpl.
  rewrite <- (kept_candidates f) at 2.
  unfold candidates_spec at 1. f_equal.
  rewrite <- list_fmap_compose.
  unfold candidates_spec.
  induction f as [|line f IH]; [done|].
  rewrite fmap_cons, filter_cons. case_decide; [|done].
  rewrite !fmap_cons. f_equal; [apply strip_line_feed | apply IH].
Qed.

(** ** The pool: liveness *)

Lemma exec_app (w : os) (ipv4_addr : list str) (max_workers : Z)
    (sched1 sched2 : list nat) (s : state) :
  exec w ipv4_addr max_workers (sched1 ++ sched2) s
  = match exec w ipv4_addr max_workers sched1 s with
    | Some s1 => exec w ipv4_addr max_workers sched2 s1
    | None => None
    end.
Proof.
  revert s. induction sched1 as [|i sched1 IH]; intros s; simpl; [done|].
  by destruct (process_single_ip w ipv4_addr max_workers i s).
Qed.

Lemma exec_empty (w : os) (max_workers : Z) (sched : list nat) (s : state) :
  exec w [] max_workers sched (init []) = Some s → s = init [].
Proof. destruct sched as [|i sched]; simpl; [by intros [= <-] | done]. Qed.

Lemma reached_inv (w : os) (ipv4_addr : list str) (max_workers : Z)
    (sched : list nat) (s : state) :
  ipv4_addr ≠ [] →
  exec w ipv4_addr max_workers sched (init ipv4_addr) = Some s →
  inv w ipv4_addr s.
Proof. intros Hne Hexec. eapply exec_inv; [done|apply init_inv|done]. Qed.

(** X4. The pool cannot deadlock: with a positive worker limit, in every
    state a run can reach in which some task has not completed, some task
    can take a turn. *)
Theorem pool_deadlock_free (w : os) (ipv4_addr : list str) (max_workers : Z)
    (sched : list nat) (s : state) :
  0 < max_workers →
  exec w ipv4_addr max_workers sched (init ipv4_addr) = Some s →
  all_done s = false →
  ∃ i s', process_single_ip w ipv4_addr max_workers i s = Some s'.
Proof.
  intros Hmw Hexec Hdone. destruct (decide (ipv4_addr = [])) as [->|Hne].
  - by apply exec_empty in Hexec as ->.
  - eapply inv_progress; [done| |done]. by eapply reached_inv.
Qed.

Lemma pool_deadlock_free_witness :
  ∃ i s',
    process_single_ip Sample.sys [lit "1.1.1.1"; lit "8.8.8.8"] 1 i
      (State [AtLock (Some (lit "2606::1111")); Queued] false 0 0 [] []
             [ELookup (lit "1.1.1.1")])
    = Some s'.
Proof.
  apply (pool_deadlock_free Sample.sys [lit "1.1.1.1"; lit "8.8.8.8"] 1
           [0; 0]%nat); [reflexivity | vm_compute; reflexivity | reflexivity].
Defined.

(** X5. Every run of the pool is finite: a schedule has at most nine
    turns for each candidate. *)
Theorem pool_schedule_bound (w : os) (ipv4_addr : list str) (max_workers : Z)
    (sched : list nat) (s : state) :
  exec w ipv4_addr max_workers sched (init ipv4_addr) = Some s →
  (length sched ≤ 9 * length ipv4_addr)%nat.
Proof.
  intros Hexec. apply exec_length in Hexec.
  assert (measure (init ipv4_addr) = (9 * length ipv4_addr)%nat) as Hm.
  { unfold measure, init. simpl.
    rewrite fmap_replicate, sum_list_replicate. simpl. lia. }
  lia.
Qed.

Lemma pool_schedule_bound_witness :
  (length (Sample.turns_found 0 ++ Sample.turns_none 1) ≤ 9 * 2)%nat.
Proof.
  apply (pool_schedule_bound Sample.sys [lit "1.1.1.1"; lit "8.8.8.8"] 20
           (Sample.turns_found 0 ++ Sample.turns_none 1)
           (State [Finished (Some (lit "2606::1111")); Finished None] false 2 1
                  [lit "2606::1111"]
                  [Finished (Some (lit "2606::1111")); Finished None]
                  [ELookup (lit "1.1.1.1"); ELookup (lit "8.8.8.8")])).
  vm_compute. reflexivity.
Defined.

(** X6. No run of the pool gets stuck: with a positive worker limit, every
    schedule can be continued until all tasks have completed. *)
Theorem pool_run_completes (w : os) (ipv4_addr : list str) (max_workers : Z)
    (sched : list nat) (s : state) :
  0 < max_workers →
  exec w ipv4_addr max_workers sched (init ipv4_addr) = Some s →
  ∃ sched' s',
    exec w ipv4_addr max_workers (sched ++ sched') (init ipv4_addr) = Some s'
    ∧ all_done s' = true.
Proof.
  intros Hmw Hexec. destruct (decide (ipv4_addr = [])) as [->|Hne].
  - apply exec_empty in Hexec as Hs. subst s.
    exists [], (init []). by rewrite app_nil_r.
  - destruct (exec_complete w ipv4_addr max_workers Hne s Hmw)
      as (sched' & s' & Hexec' & Hdone); [by eapply reached_inv|].
    exists sched', s'. by rewrite exec_app, Hexec.
Qed.

Lemma pool_run_completes_witness :
  ∃ sched' s',
    exec Sample.sys [lit "1.1.1.1"; lit "8.8.8.8"] 1 ([0; 0]%nat ++ sched')
      (init [lit "1.1.1.1"; lit "8.8.8.8"]) = Some s'
    ∧ all_done s' = true.
Proof.
  apply (pool_run_completes Sample.sys [lit "1.1.1.1"; lit "8.8.8.8"] 1
           [0; 0]%nat
           (State [AtLock (Some (lit "2606::1111")); Queued] false 0 0 [] []
                  [ELookup (lit "1.1.1.1")]));
    [reflexivity | vm_compute; reflexivity].
Defined.

(** ** The pool: what a turn does *)

(** A turn of task [i], read off [process_single_ip] in a state that
    satisfies the invariant. *)
Lemma turn_cases (w : os) (ipv4_addr : list str) (max_workers : Z)
    (i : nat) (s s' : state) :
  ipv4_addr ≠ [] → inv w ipv4_addr s →
  process_single_ip w ipv4_addr max_workers i s = Some s' →
  ∃ c c' ipv4,
    tasks s !! i = Some c ∧ ipv4_addr !! i = Some ipv4
    ∧ tasks s' = <[i := c']> (tasks s)
    ∧ match c with
      | Queued =>
          c' = Running
          ∧ forallb started (take i (tasks s)) = true
          ∧ Z.of_nat (count in_flight (tasks s)) < max_workers
          ∧ trace s' = trace s ∧ ipv6_results s' = ipv6_results s
      | Running =>
          c' = match resolve_ipv4_to_ipv6 w ipv4 with
               | Return ipv6 => AtLock ipv6
               | Raise e => Failed e
               end
          ∧ trace s' = trace s ++ [ELookup ipv4]
          ∧ ipv6_results s' = ipv6_results s
      | Append a =>
          c' = Progress (Some a) ∧ truthy a = true
          ∧ trace s' = trace s ∧ ipv6_results s' = ipv6_results s ++ [a]
      | Progress ipv6 =>
          c' = Finished ipv6 ∧ ipv6_results s' = ipv6_results s
          ∧ trace s'
            = trace s
              ++ (if proc_cnt s mod 10 =? 0
                  then [EPrint (MsgProgress
                                  (inject_Z (proc_cnt s)
                                   / inject_Z (Z.of_nat (length ipv4_addr)))%Q
                                  (found_cnt s))]
                  else [])
      | Finished _ | Failed _ => False
      | _ =>
          in_flight c' = true ∧ past_lookup c' = true
          ∧ is_finished c' = false ∧ appended c' = []
          ∧ trace s' = trace s ∧ ipv6_results s' = ipv6_results s
      end.
Proof.
  intros Hne Hinv Hstep. unfold process_single_ip in Hstep.
  destruct (tasks s !! i) as [c|] eqn:Hi; [|done].
  destruct (Forall2_lookup_r _ _ _ _ _ (inv_pc _ _ _ Hinv) Hi)
    as (ipv4 & Hc & Hok).
  exists c. destruct c; simpl in Hok.
  - destruct (forallb _ _) eqn:Hfifo; [|done].
    destruct (_ <? _) eqn:Hlt; [|done]. injection Hstep as <-.
    apply Z.ltb_lt in Hlt. eexists _, _. by split_and!.
  - rewrite Hc in Hstep.
    exists (match resolve_ipv4_to_ipv6 w ipv4 with
            | Return ipv6 => AtLock ipv6
            | Raise e => Failed e
            end), ipv4.
    destruct (resolve_ipv4_to_ipv6 w ipv4); injection Hstep as <-;
      by split_and!.
  - destruct (lock s); [done|]. injection Hstep as <-.
    eexists _, _. by split_and!.
  - injection Hstep as <-. eexists _, _. by split_and!.
  - injection Hstep as <-. eexists _, _. split_and!; try done.
    + by destruct ipv6 as [a|]; [destruct (truthy a)|].
    + by destruct ipv6 as [a|]; [destruct (truthy a)|].
    + by destruct ipv6 as [a|]; [destruct (truthy a)|].
    + destruct ipv6 as [a|]; [destruct (truthy a) eqn:Ha|]; simpl;
        by rewrite ?Ha.
  - injection Hstep as <-. eexists _, _. by split_and!.
  - injection Hstep as <-. eexists _, _. by split_and!.
  - injection Hstep as <-. destruct Hok as [_ Ha]. eexists _, _. by split_and!.
  - rewrite truediv_nonzero in Hstep by (by apply length_nonzero).
    destruct (proc_cnt s mod 10 =? 0); injection Hstep as <-;
      eexists _, _; split_and!; try done. simpl. by rewrite app_nil_r.
  - done.
  - done.
Qed.

(** ** The pool: worker limit and order of start *)

(** X7. The pool keeps to its limit and to the order of submission: in
    every state a run can reach, the tasks in flight are at most
    [max_workers], and a task has started only when every task submitted
    before it has. *)
Theorem pool_discipline (w : os) (ipv4_addr : list str) (max_workers : Z)
    (sched : list nat) (s : state) :
  ipv4_addr ≠ [] → 0 < max_workers →
  exec w ipv4_addr max_workers sched (init ipv4_addr) = Some s →
  Z.of_nat (count in_flight (tasks s)) ≤ max_workers
  ∧ ∀ i j ci cj, (i < j)%nat →
      tasks s !! i = Some ci → tasks s !! j = Some cj →
      started cj = true → started ci = true.
Proof.
  intros Hne Hmw.
  assert (∀ s0,
    inv w ipv4_addr s0 →
    (Z.of_nat (count in_flight (tasks s0)) ≤ max_workers
     ∧ ∀ i j ci cj, (i < j)%nat →
         tasks s0 !! i = Some ci → tasks s0 !! j = Some cj →
         started cj = true → started ci = true) →
    exec w ipv4_addr max_workers sched s0 = Some s →
    Z.of_nat (count in_flight (tasks s)) ≤ max_workers
    ∧ ∀ i j ci cj, (i < j)%nat →
        tasks s !! i = Some ci → tasks s !! j = Some cj →
        started cj = true → started ci = true) as Hgen.
  { induction sched as [|k sched IH]; intros s0 Hinv Hd Hexec; simpl in Hexec.
    - by injection Hexec as <-.
    - destruct (process_single_ip w ipv4_addr max_workers k s0) as [s1|]
        eqn:Hstep; [|done].
      apply (IH s1); [by eapply turn_inv| |done]. clear IH Hexec.
      destruct Hd as [Hbound Hfifo].
      destruct (turn_cases _ _ _ _ _ _ Hne Hinv Hstep)
        as (c & c' & ipv4 & Hk & _ & Ht & Hcase).
      pose proof (lookup_lt_Some _ _ _ Hk) as Hlen.
      assert (started c' = true
              ∧ (c = Queued ∧ forallb started (take k (tasks s0)) = true
                 ∧ Z.of_nat (count in_flight (tasks s0)) < max_workers
                 ∨ started c = true ∧ in_flight c = true)) as [Hc' Hc].
      { destruct c; simpl in Hcase; try done.
        - destruct Hcase as (-> & ? & ? & _). split; [done|]. by left.
        - destruct Hcase as (-> & _).
          split; [by destruct (resolve_ipv4_to_ipv6 w ipv4)|]. by right.
        - destruct Hcase as (Hf & _). split; [by destruct c'|]. by right.
        - destruct Hcase as (Hf & _). split; [by destruct c'|]. by right.
        - destruct Hcase as (Hf & _). split; [by destruct c'|]. by right.
        - destruct Hcase as (Hf & _). split; [by destruct c'|]. by right.
        - destruct Hcase as (Hf & _). split; [by destruct c'|]. by right.
        - destruct Hcase as (-> & _). split; [done|]. by right.
        - destruct Hcase as (-> & _). split; [done|]. by right. }
      rewrite Ht. split.
      + pose proof (count_insert in_flight _ _ _ c' Hk) as Hcount.
        destruct Hc as [(-> & _ & Hlt)|[_ Hfl]].
        * simpl in Hcount. destruct (in_flight c'); simpl in Hcount; lia.
        * rewrite Hfl in Hcount. destruct (in_flight c'); simpl in Hcount; lia.
      + intros i j ci cj Hij Hi Hj Hsj.
        destruct (decide (i = k)) as [->|Hik].
        { rewrite list_lookup_insert_eq in Hi by done. by injection Hi as <-. }
        rewrite list_lookup_insert_ne in Hi by done.
        destruct (decide (j = k)) as [->|Hjk].
        * destruct Hc as [(_ & Hguard & _)|[Hsc _]].
          -- apply forallb_Forall in Hguard.
             eapply Forall_lookup_1 in Hguard; [done|].
             by rewrite lookup_take_lt.
          -- by apply (Hfifo i k ci c).
        * rewrite list_lookup_insert_ne in Hj by done.
          by apply (Hfifo i j ci cj). }
  intros Hexec. apply (Hgen (init ipv4_addr)); [apply init_inv| |done].
  split.
  - unfold init. simpl. rewrite count_replicate by done. lia.
  - intros i j ci cj _ _ Hj Hs. unfold init in Hj. simpl in Hj.
    apply lookup_replicate in Hj as [-> _]. done.
Qed.

Lemma pool_discipline_witness :
  Z.of_nat (count in_flight [AtLock (Some (lit "2606::1111")); Running]) ≤ 2.
Proof.
  apply (pool_discipline Sample.sys [lit "1.1.1.1"; lit "8.8.8.8"] 2
           [0; 1; 0]%nat
           (State [AtLock (Some (lit "2606::1111")); Running] false 0 0 [] []
                  [ELookup (lit "1.1.1.1")]));
    [discriminate | reflexivity | vm_compute; reflexivity].
Defined.

(** ** The pool: the result does not depend on the schedule *)

Lemma done_tasks_expected (w : os) (ipv4_addr : list str) (l : list pc) :
  Forall2 (pc_ok w) ipv4_addr l → Forall (λ c, is_done c = true) l →
  l = expected_future w <$> ipv4_addr.
Proof.
  induction 1 as [|ipv4 c cands l Hok _ IH]; intros Hdone; [done|].
  apply Forall_cons in Hdone as [Hc Hdone]. rewrite fmap_cons, <- IH by done.
  f_equal. unfold expected_future.
  destruct c; try done; simpl in Hok; by rewrite Hok.
Qed.

Lemma expected_totals (w : os) (ipv4_addr : list str) :
  count past_proc (expected_future w <$> ipv4_addr)
  = count (resolves w) ipv4_addr
  ∧ count past_found (expected_future w <$> ipv4_addr)
    = length (found_addresses w ipv4_addr)
  ∧ (expected_future w <$> ipv4_addr) ≫= appended
    = found_addresses w ipv4_addr.
Proof.
  induction ipv4_addr as [|ipv4 cands (IH1 & IH2 & IH3)]; [done|].
  rewrite fmap_cons, bind_cons. unfold found_addresses in *. simpl.
  rewrite IH1, IH2, IH3. unfold expected_future, resolves.
  destruct (resolve_ipv4_to_ipv6 w ipv4) as [[a|]|e]; simpl; try done.
  by destruct (truthy a).
Qed.

(** Once all tasks have completed, the futures and the result list are
    those the operating system determines. *)
Lemma final_state_expected (w : os) (ipv4_addr : list str)
    (max_workers : Z) (sched : list nat) (s : state) :
  exec w ipv4_addr max_workers sched (init ipv4_addr) = Some s →
  all_done s = true →
  tasks s = expected_future w <$> ipv4_addr
  ∧ ipv6_results s ≡ₚ found_addresses w ipv4_addr.
Proof.
  intros Hexec Hdone. destruct (decide (ipv4_addr = [])) as [->|Hne].
  { by apply exec_empty in Hexec as ->. }
  pose proof (reached_inv _ _ _ _ _ Hne Hexec) as Hinv.
  apply forallb_Forall in Hdone.
  pose proof (done_tasks_expected _ _ _ (inv_pc _ _ _ Hinv) Hdone) as Ht.
  split; [done|]. rewrite (inv_results _ _ _ Hinv), Ht.
  by rewrite (proj2 (proj2 (expected_totals w ipv4_addr))).
Qed.

(** X8. The outcome of the pool does not depend on the schedule or on the
    worker limit: once all tasks have completed, each future holds what the
    resolver gives for its candidate, the processed count is the number of
    candidates for which the resolver returned, the found count is the
    number of addresses that passed the test of line 93, and the result
    list holds exactly these addresses, in some order. *)
Theorem pool_result_determined (w : os) (ipv4_addr : list str)
    (max_workers : Z) (sched : list nat) (s : state) :
  exec w ipv4_addr max_workers sched (init ipv4_addr) = Some s →
  all_done s = true →
  tasks s = expected_future w <$> ipv4_addr
  ∧ proc_cnt s = Z.of_nat (count (resolves w) ipv4_addr)
  ∧ found_cnt s = Z.of_nat (length (found_addresses w ipv4_addr))
  ∧ ipv6_results s ≡ₚ found_addresses w ipv4_addr.
Proof.
  intros Hexec Hdone. destruct (decide (ipv4_addr = [])) as [->|Hne].
  { by apply exec_empty in Hexec as ->. }
  pose proof (reached_inv _ _ _ _ _ Hne Hexec) as Hinv.
  pose proof Hinv as [Hpc _ Hproc Hfound _ Hres _ _].
  apply forallb_Forall in Hdone.
  pose proof (done_tasks_expected _ _ _ Hpc Hdone) as Ht.
  destruct (expected_totals w ipv4_addr) as (E1 & E2 & E3).
  rewrite Ht in Hproc, Hfound, Hres. rewrite E1 in Hproc.
  rewrite E2 in Hfound. rewrite E3 in Hres. done.
Qed.

Lemma pool_result_determined_witness :
  ∃ s, exec Sample.sys [lit "1.1.1.1"; lit "a..b"] 1
         (Sample.turns_found 0 ++ [1; 1]%nat)
         (init [lit "1.1.1.1"; lit "a..b"]) = Some s
       ∧ proc_cnt s = 1 ∧ found_cnt s = 1
       ∧ ipv6_results s ≡ₚ [lit "2606::1111"].
Proof.
  eexists. split; [vm_compute; reflexivity|].
  destruct (pool_result_determined Sample.sys [lit "1.1.1.1"; lit "a..b"] 1
              (Sample.turns_found 0 ++ [1; 1]%nat) _
              ltac:(vm_compute; reflexivity) ltac:(reflexivity))
    as (_ & Hp & Hf & Hr).
  split; [exact Hp|]. split; [exact Hf | exact Hr].
Defined.

(** ** The pool: lookups and progress lines *)

Lemma looked_up_insert (ipv4_addr : list str) (l : list pc) (i : nat)
    (ipv4 : str) (x y : pc) :
  ipv4_addr !! i = Some ipv4 → l !! i = Some x →
  looked_up ipv4_addr (<[i := y]> l) ++ (if past_lookup x then [ipv4] else [])
  ≡ₚ looked_up ipv4_addr l ++ (if past_lookup y then [ipv4] else []).
Proof.
  revert l i. induction ipv4_addr as [|c cands IH]; intros [|z l] [|i] Hc Hi;
    simpl in *; try done.
  - injection Hc as ->. injection Hi as ->. rewrite <- !app_assoc.
    rewrite (Permutation_app_comm _ (if past_lookup x then _ else _)).
    rewrite (Permutation_app_comm _ (if past_lookup y then _ else _)).
    rewrite !app_assoc. f_equiv. apply Permutation_app_comm.
  - rewrite <- !app_assoc. f_equiv. by apply IH.
Qed.

Lemma looked_up_submseteq (ipv4_addr : list str) (l : list pc) :
  looked_up ipv4_addr l ⊆+ ipv4_addr.
Proof.
  revert l. induction ipv4_addr as [|c cands IH]; intros [|z l]; simpl;
    try done.
  - apply submseteq_nil_l.
  - destruct (past_lookup z); simpl.
    + by apply submseteq_skip.
    + by apply submseteq_cons.
Qed.

Lemma looked_up_all (ipv4_addr : list str) (l : list pc) :
  length l = length ipv4_addr → Forall (λ c, is_done c = true) l →
  looked_up ipv4_addr l = ipv4_addr.
Proof.
  revert l. induction ipv4_addr as [|c cands IH]; intros [|z l] Hlen Hdone;
    simpl in *; try done.
  apply Forall_cons in Hdone as [Hz Hdone].
  rewrite IH by (done || lia). by destruct z.
Qed.

Lemma tens_next (n d : nat) :
  tens n (S d)
  = tens n d
    ++ (if Z.of_nat (S d) mod 10 =? 0
        then [(inject_Z (Z.of_nat (S d)) / inject_Z (Z.of_nat n))%Q]
        else []).
Proof.
  unfold tens.
  pose proof (Nat.div_mod_eq d 10) as H1.
  pose proof (Nat.div_mod_eq (S d) 10) as H2.
  pose proof (Nat.mod_upper_bound d 10 ltac:(done)) as H3.
  pose proof (Nat.mod_upper_bound (S d) 10 ltac:(done)) as H4.
  replace (Z.of_nat (S d) mod 10) with (Z.of_nat (S d `mod` 10))
    by (by rewrite Nat2Z.inj_mod).
  destruct (Z.of_nat (S d `mod` 10) =? 0) eqn:Hm.
  - apply Z.eqb_eq in Hm.
    assert (S d / 10 = S (d / 10))%nat as Hq by lia.
    rewrite Hq, seq_S, fmap_app. f_equal.
    change ([(inject_Z (10 * Z.of_nat (1 + d / 10))
              / inject_Z (Z.of_nat n))%Q]
            = [(inject_Z (Z.of_nat (S d)) / inject_Z (Z.of_nat n))%Q]).
    do 3 f_equal. lia.
  - apply Z.eqb_neq in Hm.
    assert (S d / 10 = d / 10)%nat as Hq by lia.
    by rewrite Hq, app_nil_r.
Qed.

Lemma count_split {A} (p q r : A → bool) (l : list A) :
  (∀ x, Nat.b2n (p x) = Nat.b2n (q x) + Nat.b2n (r x))%nat →
  (count p l = count q l + count r l)%nat.
Proof.
  intros H. induction l as [|x l IH]; simpl; [done|].
  specialize (H x). unfold Nat.b2n in H. rewrite IH.
  destruct (p x), (q x), (r x); simpl in *; lia.
Qed.

(** Inside the block and after its increment, a task sees the number of
    tasks that have returned, plus one. *)
Lemma processed_in_block (w : os) (ipv4_addr : list str) (s : state)
    (i : nat) (c : pc) :
  inv w ipv4_addr s → tasks s !! i = Some c →
  in_cs c = true → past_proc c = true →
  proc_cnt s = Z.of_nat (S (count is_finished (tasks s))).
Proof.
  intros Hinv Hi Hcs Hpp. rewrite (inv_proc _ _ _ Hinv).
  rewrite (count_split past_proc is_finished (λ x, past_proc x && in_cs x))
    by (by intros []).
  pose proof (count_lookup (λ x, past_proc x && in_cs x) _ _ _ Hi) as Hge.
  simpl in Hge. rewrite Hcs, Hpp in Hge. simpl in Hge.
  pose proof (count_mono (λ x, past_proc x && in_cs x) in_cs (tasks s)) as Hle.
  rewrite (inv_lock _ _ _ Hinv), (inv_lock_held _ _ _ _ _ Hinv Hi Hcs) in Hle.
  specialize (Hle ltac:(by intros [])). lia.
Qed.

Lemma lookups_app (t1 t2 : list event) :
  lookups (t1 ++ t2) = lookups t1 ++ lookups t2.
Proof. apply omap_app. Qed.

Lemma progress_lines_app (t1 t2 : list event) :
  progress_lines (t1 ++ t2) = progress_lines t1 ++ progress_lines t2.
Proof. apply omap_app. Qed.

(** What the trace of the pool holds. *)
Lemma exec_trace (w : os) (ipv4_addr : list str) (max_workers : Z)
    (sched : list nat) (s0 s : state) :
  ipv4_addr ≠ [] → inv w ipv4_addr s0 →
  lookups (trace s0) ≡ₚ looked_up ipv4_addr (tasks s0) →
  progress_lines (trace s0)
  = tens (length ipv4_addr) (count is_finished (tasks s0)) →
  exec w ipv4_addr max_workers sched s0 = Some s →
  lookups (trace s) ≡ₚ looked_up ipv4_addr (tasks s)
  ∧ progress_lines (trace s)
    = tens (length ipv4_addr) (count is_finished (tasks s)).
Proof.
  intros Hne. revert s0.
  induction sched as [|k sched IH]; intros s0 Hinv HL HP Hexec;
    simpl in Hexec.
  { by injection Hexec as <-. }
  destruct (process_single_ip w ipv4_addr max_workers k s0) as [s1|]
    eqn:Hstep; [|done].
  apply (IH s1); [by eapply turn_inv| | |done]; clear IH Hexec.
  - destruct (turn_cases _ _ _ _ _ _ Hne Hinv Hstep)
      as (c & c' & ipv4 & Hk & Hc & Ht & Hcase).
    pose proof (looked_up_insert _ _ _ _ _ c' Hc Hk) as Hins.
    rewrite Ht.
    destruct c; simpl in Hcase, Hins; try done.
    + destruct Hcase as (-> & _ & _ & -> & _). simpl in Hins.
      rewrite !app_nil_r in Hins. by rewrite Hins.
    + destruct Hcase as (-> & -> & _).
      rewrite lookups_app, HL. simpl.
      assert (past_lookup
                match resolve_ipv4_to_ipv6 w ipv4 with
                | Return ipv6 => AtLock ipv6
                | Raise e => Failed e
                end = true) as Hpl
        by (by destruct (resolve_ipv4_to_ipv6 w ipv4)).
      rewrite Hpl, app_nil_r in Hins. by rewrite Hins.
    + destruct Hcase as (_ & Hpl & _ & _ & -> & _). rewrite Hpl in Hins.
      apply Permutation_app_inv_r in Hins. by rewrite Hins.
    + destruct Hcase as (_ & Hpl & _ & _ & -> & _). rewrite Hpl in Hins.
      apply Permutation_app_inv_r in Hins. by rewrite Hins.
    + destruct Hcase as (_ & Hpl & _ & _ & -> & _). rewrite Hpl in Hins.
      apply Permutation_app_inv_r in Hins. by rewrite Hins.
    + destruct Hcase as (_ & Hpl & _ & _ & -> & _). rewrite Hpl in Hins.
      apply Permutation_app_inv_r in Hins. by rewrite Hins.
    + destruct Hcase as (_ & Hpl & _ & _ & -> & _). rewrite Hpl in Hins.
      apply Permutation_app_inv_r in Hins. by rewrite Hins.
    + destruct Hcase as (-> & _ & -> & _). simpl in Hins.
      apply Permutation_app_inv_r in Hins. by rewrite Hins.
    + destruct Hcase as (-> & _ & ->). simpl in Hins.
      apply Permutation_app_inv_r in Hins. rewrite Hins, lookups_app, HL.
      destruct (_ =? _); simpl; by rewrite app_nil_r.
  - destruct (turn_cases _ _ _ _ _ _ Hne Hinv Hstep)
      as (c & c' & ipv4 & Hk & Hc & Ht & Hcase).
    pose proof (count_insert is_finished _ _ _ c' Hk) as Hins.
    rewrite Ht.
    assert (∀ a b : nat, (a + 0 = b + 0)%nat → a = b) as Hz by lia.
    destruct c; simpl in Hcase, Hins; try done.
    + destruct Hcase as (-> & _ & _ & -> & _). simpl in Hins.
      by rewrite (Hz _ _ Hins).
    + destruct Hcase as (-> & -> & _). rewrite progress_lines_app, HP. simpl.
      assert (is_finished
                match resolve_ipv4_to_ipv6 w ipv4 with
                | Return ipv6 => AtLock ipv6
                | Raise e => Failed e
                end = false) as Hf
        by (by destruct (resolve_ipv4_to_ipv6 w ipv4)).
      rewrite Hf in Hins. simpl in Hins. by rewrite (Hz _ _ Hins), app_nil_r.
    + destruct Hcase as (_ & _ & Hf & _ & -> & _). rewrite Hf in Hins.
      by rewrite (Hz _ _ Hins).
    + destruct Hcase as (_ & _ & Hf & _ & -> & _). rewrite Hf in Hins.
      by rewrite (Hz _ _ Hins).
    + destruct Hcase as (_ & _ & Hf & _ & -> & _). rewrite Hf in Hins.
      by rewrite (Hz _ _ Hins).
    + destruct Hcase as (_ & _ & Hf & _ & -> & _). rewrite Hf in Hins.
      by rewrite (Hz _ _ Hins).
    + destruct Hcase as (_ & _ & Hf & _ & -> & _). rewrite Hf in Hins.
      by rewrite (Hz _ _ Hins).
    + destruct Hcase as (-> & _ & -> & _). simpl in Hins.
      by rewrite (Hz _ _ Hins).
    + destruct Hcase as (-> & _ & ->). simpl in Hins.
      assert (count is_finished (<[k:=Finished ipv6]> (tasks s0))
              = S (count is_finished (tasks s0))) as -> by lia.
      rewrite progress_lines_app, HP, tens_next.
      rewrite (processed_in_block _ _ _ _ _ Hinv Hk eq_refl eq_refl).
      by destruct (_ =? _).
Qed.

Lemma init_trace (w : os) (ipv4_addr : list str) :
  lookups (trace (init ipv4_addr))
  ≡ₚ looked_up ipv4_addr (tasks (init ipv4_addr))
  ∧ progress_lines (trace (init ipv4_addr))
    = tens (length ipv4_addr) (count is_finished (tasks (init ipv4_addr))).
Proof.
  unfold init. simpl. split.
  - generalize (length ipv4_addr). induction ipv4_addr as [|c cands IH];
      intros [|n]; simpl; done.
  - by rewrite count_replicate.
Qed.

(** X9. Every candidate is looked up once: at any moment of a run the
    lookups made so far are candidates, each counted at most as often as
    it stands in the list, and once all tasks have completed the lookups
    are exactly the candidates, duplicates included. *)
Theorem lookups_once (w : os) (ipv4_addr : list str) (max_workers : Z)
    (sched : list nat) (s : state) :
  exec w ipv4_addr max_workers sched (init ipv4_addr) = Some s →
  lookups (trace s) ⊆+ ipv4_addr
  ∧ (all_done s = true → lookups (trace s) ≡ₚ ipv4_addr).
Proof.
  intros Hexec. destruct (decide (ipv4_addr = [])) as [->|Hne].
  { by apply exec_empty in Hexec as ->. }
  destruct (init_trace w ipv4_addr) as [HL HP].
  destruct (exec_trace _ _ _ _ _ _ Hne (init_inv w ipv4_addr) HL HP Hexec)
    as [HL' _].
  split.
  - rewrite HL'. apply looked_up_submseteq.
  - intros Hdone. rewrite HL'. apply forallb_Forall in Hdone.
    rewrite looked_up_all; [done| |done].
    pose proof (reached_inv _ _ _ _ _ Hne Hexec) as Hinv.
    symmetry. apply (Forall2_length _ _ _ (inv_pc _ _ _ Hinv)).
Qed.

Lemma lookups_once_witness :
  lookups [ELookup (lit "1.1.1.1"); ELookup (lit "8.8.8.8")]
  ⊆+ [lit "1.1.1.1"; lit "8.8.8.8"].
Proof.
  apply (lookups_once Sample.sys [lit "1.1.1.1"; lit "8.8.8.8"] 20
           (Sample.turns_found 0 ++ Sample.turns_none 1)
           (State [Finished (Some (lit "2606::1111")); Finished None] false 2 1
                  [lit "2606::1111"]
                  [Finished (Some (lit "2606::1111")); Finished None]
                  [ELookup (lit "1.1.1.1"); ELookup (lit "8.8.8.8")])).
  vm_compute. reflexivity.
Defined.





(** ** The pool with a single worker *)

Lemma bind_insert_same {A B} (f : A → list B) (l : list A) (i : nat)
    (x y : A) :
  l !! i = Some x → f y = f x → <[i := y]> l ≫= f = l ≫= f.
Proof.
  revert i. induction l as [|z l IH]; intros [|i] Hi Hf; try done.
  - injection Hi as ->. change (<[0%nat := y]> (x :: l)) with (y :: l).
    by rewrite !bind_cons, Hf.
  - change (<[S i := y]> (z :: l)) with (z :: <[i := y]> l).
    by rewrite !bind_cons, (IH i).
Qed.

Lemma bind_appended_nil (l : list pc) :
  Forall (λ c, appended c = []) l → l ≫= appended = [].
Proof.
  induction 1 as [|c l Hc _ IH]; [done|]. by rewrite bind_cons, Hc, IH.
Qed.

(** With one worker the tasks run one after the other, in the order of
    submission, and the result list grows in that order. *)
Lemma exec_single_worker (w : os) (ipv4_addr : list str)
    (sched : list nat) (s0 s : state) :
  ipv4_addr ≠ [] → inv w ipv4_addr s0 →
  (∀ i j ci cj, (i < j)%nat →
     tasks s0 !! i = Some ci → tasks s0 !! j = Some cj →
     started cj = true → is_done ci = true) →
  ipv6_results s0 = tasks s0 ≫= appended →
  exec w ipv4_addr 1 sched s0 = Some s →
  (∀ i j ci cj, (i < j)%nat →
     tasks s !! i = Some ci → tasks s !! j = Some cj →
     started cj = true → is_done ci = true)
  ∧ ipv6_results s = tasks s ≫= appended.
Proof.
  intros Hne. revert s0.
  induction sched as [|k sched IH]; intros s0 Hinv HJ HR Hexec;
    simpl in Hexec.
  { by injection Hexec as <-. }
  destruct (process_single_ip w ipv4_addr 1 k s0) as [s1|] eqn:Hstep; [|done].
  destruct (turn_cases _ _ _ _ _ _ Hne Hinv Hstep)
    as (c & c' & ipv4 & Hk & Hc & Ht & Hcase).
  pose proof (lookup_lt_Some _ _ _ Hk) as Hlen.
  assert (is_done c = false) as Hnd by (by destruct c).
  apply (IH s1); [by eapply turn_inv| | |done]; clear IH Hexec.
  - rewrite Ht. intros i j ci cj Hij Hi Hj Hsj.
    destruct (decide (j = k)) as [->|Hjk].
    + rewrite list_lookup_insert_ne in Hi by lia.
      destruct (started c) eqn:Hsc.
      * by apply (HJ i k ci c).
      * assert (c = Queued) as -> by (by destruct c).
        destruct Hcase as (_ & Hfifo & Hlim & _).
        apply forallb_Forall in Hfifo.
        eapply Forall_lookup_1 in Hfifo; [|by rewrite lookup_take_lt].
        pose proof (count_lookup in_flight _ _ _ Hi) as Hfl.
        assert (in_flight ci = negb (is_done ci)) as Hfi
          by (unfold in_flight; by rewrite Hfifo).
        rewrite Hfi in Hfl.
        destruct (is_done ci); [done|]. simpl in Hfl. lia.
    + rewrite list_lookup_insert_ne in Hj by done.
      destruct (decide (i = k)) as [->|Hik].
      * pose proof (HJ k j c cj Hij Hk Hj Hsj). congruence.
      * rewrite list_lookup_insert_ne in Hi by done.
        by apply (HJ i j ci cj).
  - rewrite Ht.
    assert (ipv6_results s1 = ipv6_results s0 ∧ appended c' = appended c
            ∨ ∃ a, c = Append a ∧ c' = Progress (Some a) ∧ truthy a = true
                   ∧ ipv6_results s1 = ipv6_results s0 ++ [a])
      as [[Hr Hsame]|(a & -> & -> & Ha & Hr)].
    { destruct c; simpl in Hcase; try done.
      - destruct Hcase as (-> & _ & _ & _ & ->). by left.
      - destruct Hcase as (-> & _ & ->). left. split; [done|].
        by destruct (resolve_ipv4_to_ipv6 w ipv4).
      - destruct Hcase as (_ & _ & _ & Happ & _ & ->). left. by rewrite Happ.
      - destruct Hcase as (_ & _ & _ & Happ & _ & ->). left. by rewrite Happ.
      - destruct Hcase as (_ & _ & _ & Happ & _ & ->). left. by rewrite Happ.
      - destruct Hcase as (_ & _ & _ & Happ & _ & ->). left. by rewrite Happ.
      - destruct Hcase as (_ & _ & _ & Happ & _ & ->). left. by rewrite Happ.
      - destruct Hcase as (-> & Ha & _ & ->). right. by exists ipv6.
      - destruct Hcase as (-> & -> & _). by left. }
    + rewrite Hr, HR. symmetry. by apply (bind_insert_same _ _ _ c).
    + rewrite Hr, HR, insert_take_drop by done.
      rewrite <- (take_drop_middle _ _ _ Hk) at 1.
      rewrite !bind_app, !bind_cons. simpl. rewrite Ha.
      rewrite (bind_appended_nil (drop (S k) (tasks s0))).
      { by rewrite !app_nil_r. }
      apply Forall_lookup. intros j cj Hj. rewrite lookup_drop in Hj.
      destruct (started cj) eqn:Hs; [|by destruct cj].
      pose proof (HJ k (S k + j)%nat _ cj ltac:(lia) Hk Hj Hs). done.
Qed.

(** X11. With one worker the result list keeps the order of the input:
    once all tasks have completed it is the list of the addresses found,
    in candidate order. *)
Theorem single_worker_order (w : os) (ipv4_addr : list str)
    (sched : list nat) (s : state) :
  exec w ipv4_addr 1 sched (init ipv4_addr) = Some s →
  all_done s = true →
  ipv6_results s = found_addresses w ipv4_addr.
Proof.
  intros Hexec Hdone. destruct (decide (ipv4_addr = [])) as [->|Hne].
  { by apply exec_empty in Hexec as ->. }
  destruct (exec_single_worker w ipv4_addr sched (init ipv4_addr) s Hne)
    as [_ HR]; try done.
  - apply init_inv.
  - intros i j ci cj _ _ Hj Hs. unfold init in Hj. simpl in Hj.
    apply lookup_replicate in Hj as [-> _]. done.
  - unfold init. simpl. by rewrite bind_replicate_nil.
  - rewrite HR.
    destruct (final_state_expected _ _ _ _ _ Hexec Hdone) as (-> & _).
    apply expected_totals.
Qed.

Lemma single_worker_order_witness :
  ∃ s, exec Sample.sys [lit "8.8.8.8"; lit "1.1.1.1"] 1
         (Sample.turns_none 0 ++ Sample.turns_found 1)
         (init [lit "8.8.8.8"; lit "1.1.1.1"]) = Some s
       ∧ ipv6_results s = [lit "2606::1111"].
Proof.
  eexists. split; [vm_compute; reflexivity|].
  apply (single_worker_order Sample.sys [lit "8.8.8.8"; lit "1.1.1.1"]
           (Sample.turns_none 0 ++ Sample.turns_found 1));
    [vm_compute; reflexivity | reflexivity].
Defined.

(** ** The whole run: how it ends *)

Lemma write_loop_outcome (p : str) (fault : option (nat * exn))
    (rs : list str) :
  (write_loop p fault rs).2
  = match fault with
    | None => Return tt
    | Some (k, e) => if (k <? length rs)%nat then Raise e else Return tt
    end.
Proof.
  revert fault. induction rs as [|a rs IH]; intros fault; simpl.
  - by destruct fault as [[k e]|].
  - destruct fault as [[[|k] e]|]; simpl; [done| |].
    + specialize (IH (Some (k, e))). simpl in IH.
      destruct (write_loop p (Some (k, e)) rs) as [t r]. simpl in *.
      rewrite IH. done.
    + specialize (IH None).
      destruct (write_loop p None rs) as [t r]. simpl in *. by rewrite IH.
Qed.

Lemma write_results_outcome (w : os) (p : str) (rs : list str) :
  (write_results w p rs).2
  = match write_fault w p with
    | None => Return tt
    | Some (k, e) => if (k <=? length rs)%nat then Raise e else Return tt
    end.
Proof.
  unfold write_results. destruct (write_fault w p) as [[[|k] e]|]; [done| |].
  - pose proof (write_loop_outcome p (Some (k, e)) rs) as H.
    destruct (write_loop p (Some (k, e)) rs) as [t r]. simpl in *. rewrite H.
    done.
  - pose proof (write_loop_outcome p None rs) as H.
    destruct (write_loop p None rs) as [t r]. simpl in *. by rewrite H.
Qed.

Lemma expected_failed (w : os) (ipv4_addr : list str) :
  forallb (resolves w) ipv4_addr = true
  ↔ Forall (λ c, is_failed c = false) (expected_future w <$> ipv4_addr).
Proof.
  rewrite forallb_Forall, Forall_fmap. apply Forall_iff. intros c. simpl.
  unfold resolves, expected_future.
  by destruct (resolve_ipv4_to_ipv6 w c).
Qed.

(** X12. How a run ends depends on the operating system only, not on the
    schedule.  It returns when the input file is missing, when it holds no
    candidate, and when the resolver returns for every candidate and the
    output is written without error.  It ends with [ValueError] for a
    worker limit below 1, and with the [TypeError] of a handler when the
    input cannot be read, when the resolver raises for some candidate, or
    when opening or writing the output fails. *)
Theorem run_outcome (w : os) (sched : list nat) (input_file output_file : str)
    (max_workers : Z) (t : list event) (r : result unit) :
  process_ipv4_list w sched input_file output_file max_workers = Some (t, r) →
  r = expected_outcome w input_file output_file max_workers.
Proof.
  intros Hrun. unfold expected_outcome.
  destruct (open_read w input_file) as [f|e] eqn:Hopen.
  2:{ unfold process_ipv4_list in Hrun. rewrite Hopen in Hrun.
      by destruct (is_FileNotFoundError e); injection Hrun as <- <-. }
  destruct (read_loop f []) as [|c cands] eqn:Hcands.
  { unfold process_ipv4_list in Hrun. rewrite Hopen, Hcands in Hrun.
    by injection Hrun as <- <-. }
  destruct (max_workers <=? 0) eqn:Hmw.
  { unfold process_ipv4_list in Hrun. rewrite Hopen, Hcands, Hmw in Hrun.
    by injection Hrun as <- <-. }
  apply Z.leb_gt in Hmw.
  destruct (process_pool _ _ _ _ _ _ _ _ Hopen ltac:(by rewrite Hcands) Hmw Hrun)
    as (s & t' & Hexec & Hdone & Hinv & Hfin & ->).
  rewrite Hcands in *.
  destruct (final_state_expected _ _ _ _ _ Hexec Hdone) as (Htasks & Hres).
  destruct (pool_run_cases w (c :: cands) output_file s ltac:(done) Hinv Hdone)
    as [[Hex Hf]|(Hok & _ & Hf)]; rewrite Hf in Hfin.
  - injection Hfin as <- <-.
    destruct (forallb (resolves w) (c :: cands)) eqn:Hall; [|done].
    apply expected_failed in Hall. rewrite <- Htasks in Hall.
    apply Exists_exists in Hex as (x & Hx & Hxf).
    eapply Forall_forall in Hall; [|done]. congruence.
  - rewrite Htasks in Hok. apply expected_failed in Hok. rewrite Hok.
    pose proof (write_results_outcome w output_file (ipv6_results s)) as Hw.
    rewrite (Permutation_length Hres) in Hw.
    destruct (write_results w output_file (ipv6_results s)) as [t1 [[]|e]];
      injection Hfin as <- <-; simpl in Hw;
      destruct (write_fault w output_file) as [[k e']|]; try done;
      by destruct (k <=? _)%nat.
Qed.

Lemma run_outcome_witness :
  Raise TypeError
  = expected_outcome Sample.sys (lit "mixed.ipv4") (lit "list.ipv6") 20.
Proof.
  apply (run_outcome Sample.sys (Sample.turns_found 0 ++ [1; 1]%nat)
           (lit "mixed.ipv4") (lit "list.ipv6") 20
           [EPrint (MsgProcessing 2); ELookup (lit "1.1.1.1");
            ELookup (lit "a..b")]).
  vm_compute. reflexivity.
Defined.

(** ** The whole run: files *)

Lemma replay_other (t : list event) (q : str) (fs : gmap str str) :
  Forall (λ e, event_path e ≠ Some q) t → replay t fs !! q = fs !! q.
Proof.
  intros Ht. revert fs. induction Ht as [|e t He _ IH]; intros fs; [done|].
  rewrite replay_cons, IH.
  destruct e as [m|c|p|p data]; simpl in *; try done;
    rewrite lookup_insert_ne; congruence.
Qed.

Lemma write_loop_paths (p : str) (fault : option (nat * exn))
    (rs : list str) :
  Forall (λ e, event_path e = Some p) (write_loop p fault rs).1.
Proof.
  revert fault. induction rs as [|a rs IH]; intros fault; simpl.
  - constructor.
  - destruct fault as [[[|k] e]|]; [constructor| |].
    + specialize (IH (Some (k, e))).
      destruct (write_loop p (Some (k, e)) rs) as [t []]; simpl in *;
        by constructor.
    + specialize (IH None).
      destruct (write_loop p None rs) as [t []]; simpl in *; by constructor.
Qed.

Lemma write_results_paths (w : os) (p : str) (rs : list str) :
  Forall (λ e, event_path e = Some p) (write_results w p rs).1.
Proof.
  unfold write_results.
  destruct (write_fault w p) as [[[|k] e]|]; [constructor| |].
  - pose proof (write_loop_paths p (Some (k, e)) rs) as H.
    destruct (write_loop p (Some (k, e)) rs) as [t []]; simpl in *;
      by constructor.
  - pose proof (write_loop_paths p None rs) as H.
    destruct (write_loop p None rs) as [t []]; simpl in *; by constructor.
Qed.

(** The events of a run that touch a file touch the output file. *)
Lemma run_paths (w : os) (sched : list nat) (input_file output_file : str)
    (max_workers : Z) (t : list event) (r : result unit) :
  process_ipv4_list w sched input_file output_file max_workers = Some (t, r) →
  Forall (λ e, event_path e = None ∨ event_path e = Some output_file) t.
Proof.
  intros Hrun.
  destruct (open_read w input_file) as [f|e] eqn:Hopen.
  2:{ unfold process_ipv4_list in Hrun. rewrite Hopen in Hrun.
      destruct (is_FileNotFoundError e); injection Hrun as <- <-;
        repeat constructor. }
  destruct (read_loop f []) as [|c cands] eqn:Hcands.
  { unfold process_ipv4_list in Hrun. rewrite Hopen, Hcands in Hrun.
    injection Hrun as <- <-. repeat constructor. }
  destruct (max_workers <=? 0) eqn:Hmw.
  { unfold process_ipv4_list in Hrun. rewrite Hopen, Hcands, Hmw in Hrun.
    injection Hrun as <- <-. repeat constructor. }
  apply Z.leb_gt in Hmw.
  destruct (process_pool _ _ _ _ _ _ _ _ Hopen ltac:(by rewrite Hcands) Hmw Hrun)
    as (s & t' & Hexec & Hdone & Hinv & Hfin & ->).
  rewrite Hcands in *.
  constructor; [by left|]. apply Forall_app. split.
  { eapply Forall_impl; [apply (inv_trace _ _ _ Hinv)|].
    intros e He. left. apply event_ok_no_file in He as [He _].
    by destruct e. }
  destruct (pool_run_cases w (c :: cands) output_file s ltac:(done) Hinv Hdone)
    as [[_ Hf]|(_ & _ & Hf)]; rewrite Hf in Hfin.
  { injection Hfin as <- <-. constructor. }
  pose proof (write_results_paths w output_file (ipv6_results s)) as Hw.
  destruct (write_results w output_file (ipv6_results s)) as [t1 [[]|e]];
    injection Hfin as <- <-; simpl in Hw.
  - apply Forall_app. split.
    + eapply Forall_impl; [done|]. by right.
    + repeat constructor.
  - eapply Forall_impl; [done|]. by right.
Qed.

(** X13. A run writes to the output file and to no other: whatever the
    input, the schedule and the way the run ends, every other file is
    afterwards what it was before. *)
Theorem other_files_untouched (w : os) (sched : list nat)
    (input_file output_file : str) (max_workers : Z)
    (t : list event) (r : result unit) (q : str) (fs : gmap str str) :
  process_ipv4_list w sched input_file output_file max_workers = Some (t, r) →
  q ≠ output_file →
  replay t fs !! q = fs !! q.
Proof.
  intros Hrun Hq. apply replay_other.
  eapply Forall_impl; [by eapply run_paths|].
  intros e [->| ->]; congruence.
Qed.

Lemma other_files_untouched_witness :
  replay [EPrint (MsgProcessing 1); ELookup (lit "1.1.1.1");
          EOpenWrite (lit "list.ipv6");
          EWrite (lit "list.ipv6") (lit "2606::1111" ++ [10%N]);
          EPrint MsgCompleted; EPrint (MsgTotal 1); EPrint (MsgFound 1);
          EPrint (MsgRate (inject_Z 1 / inject_Z 1 * 100)%Q);
          EPrint (MsgSaved (lit "list.ipv6"))]
    {[lit "one.ipv4" := lit "1.1.1.1"]} !! lit "one.ipv4"
  = ({[lit "one.ipv4" := lit "1.1.1.1"]} : gmap str str) !! lit "one.ipv4".
Proof.
  apply (other_files_untouched Sample.sys (Sample.turns_found 0)
           (lit "one.ipv4") (lit "list.ipv6") 20 _ (Return tt));
    [vm_compute; reflexivity | discriminate].
Defined.

(** ** The whole run: statistics *)

Lemma rate_bounds (found processed : Z) :
  0 ≤ found ≤ processed → 0 < processed →
  (0 <= inject_Z found / inject_Z processed * 100 <= 100)%Q.
Proof.
  intros [H0 Hle] Hpos.
  assert (0 < inject_Z processed)%Q as Hp.
  { change 0%Q with (inject_Z 0). by rewrite <- Zlt_Qlt. }
  split.
  - apply Qmult_le_0_compat; [|done].
    apply Qle_shift_div_l; [done|]. rewrite Qmult_0_l.
    change 0%Q with (inject_Z 0). by rewrite <- Zle_Qle.
  - apply (Qle_trans _ (1 * 100)); [|unfold Qle; simpl; lia].
    apply Qmult_le_compat_r; [|done].
    apply Qle_shift_div_r; [done|]. rewrite Qmult_1_l. by rewrite <- Zle_Qle.
Qed.

(** X14. The success rate a run prints lies between 0 and 100. *)
Theorem success_rate_bounds (w : os) (sched : list nat)
    (input_file output_file : str) (max_workers : Z)
    (t : list event) (r : result unit) (rate : Q) :
  process_ipv4_list w sched input_file output_file max_workers = Some (t, r) →
  EPrint (MsgRate rate) ∈ t →
  (0 <= rate <= 100)%Q.
Proof.
  intros Hrun Hin.
  assert (∀ l : list event, Forall (λ e, ∀ q, e ≠ EPrint (MsgRate q)) l →
            EPrint (MsgRate rate) ∉ l) as Hnot.
  { intros l Hl Hr. eapply Forall_forall in Hl; [|done]. by apply (Hl rate). }
  destruct (open_read w input_file) as [f|e] eqn:Hopen.
  2:{ unfold process_ipv4_list in Hrun. rewrite Hopen in Hrun.
      destruct (is_FileNotFoundError e); injection Hrun as <- <-;
        (apply Hnot in Hin; [done | by repeat constructor]). }
  destruct (read_loop f []) as [|c cands] eqn:Hcands.
  { unfold process_ipv4_list in Hrun. rewrite Hopen, Hcands in Hrun.
    injection Hrun as <- <-. apply Hnot in Hin; [done | by repeat constructor]. }
  destruct (max_workers <=? 0) eqn:Hmw.
  { unfold process_ipv4_list in Hrun. rewrite Hopen, Hcands, Hmw in Hrun.
    injection Hrun as <- <-. apply Hnot in Hin; [done | by repeat constructor]. }
  apply Z.leb_gt in Hmw.
  destruct (process_pool _ _ _ _ _ _ _ _ Hopen ltac:(by rewrite Hcands) Hmw Hrun)
    as (s & t' & Hexec & Hdone & Hinv & Hfin & ->).
  rewrite Hcands in *.
  apply elem_of_cons in Hin as [?|Hin]; [done|].
  apply elem_of_app in Hin as [Hin|Hin].
  { apply Hnot in Hin; [done|].
    eapply Forall_impl; [apply (inv_trace _ _ _ Hinv)|].
    intros e He q ->. by destruct He. }
  destruct (pool_run_cases w (c :: cands) output_file s ltac:(done) Hinv Hdone)
    as [[_ Hf]|(_ & Hproc & Hf)]; rewrite Hf in Hfin.
  { injection Hfin as <- <-. by apply elem_of_nil in Hin. }
  pose proof (write_results_paths w output_file (ipv6_results s)) as Hw.
  assert (Forall (λ e, ∀ q, e ≠ EPrint (MsgRate q))
            (write_results w output_file (ipv6_results s)).1) as Hw'.
  { eapply Forall_impl; [done|]. by intros e He q ->. }
  destruct (write_results w output_file (ipv6_results s)) as [t1 [[]|e]];
    injection Hfin as <- <-; simpl in Hw'.
  - apply elem_of_app in Hin as [Hin|Hin]; [by apply Hnot in Hin|].
    unfold statistics in Hin.
    repeat (apply elem_of_cons in Hin as [Heq|Hin];
            [try done; injection Heq as ->|]).
    + apply rate_bounds.
      * rewrite (inv_found _ _ _ Hinv), (inv_proc _ _ _ Hinv).
        split; [lia|]. apply inj_le, count_mono, past_found_proc.
      * rewrite Hproc. simpl. lia.
    + by apply elem_of_nil in Hin.
  - by apply Hnot in Hin.
Qed.

Lemma success_rate_bounds_witness :
  (0 <= inject_Z 1 / inject_Z 2 * 100 <= 100)%Q.
Proof.
  apply (success_rate_bounds Sample.sys
           (Sample.turns_found 0 ++ Sample.turns_none 1)
           (lit "list.ipv4") (lit "list.ipv6") 20
           [EPrint (MsgProcessing 2); ELookup (lit "1.1.1.1");
            ELookup (lit "8.8.8.8"); EOpenWrite (lit "list.ipv6");
            EWrite (lit "list.ipv6") (lit "2606::1111" ++ [10%N]);
            EPrint MsgCompleted; EPrint (MsgTotal 2); EPrint (MsgFound 1);
            EPrint (MsgRate (inject_Z 1 / inject_Z 2 * 100)%Q);
            EPrint (MsgSaved (lit "list.ipv6"))]
           (Return tt)).
  - vm_compute. reflexivity.
  - do 8 apply list_elem_of_further. apply list_elem_of_here.
Defined.

(** ** The whole run: an output file that cannot be opened *)

(** X15. When the output file cannot be opened, no run changes any file:
    the output file keeps what it held and no file event happens, whatever
    the input and the schedule; and a run that has candidates and a
    positive worker limit ends with the [TypeError] of a handler, after
    every candidate has been looked up. *)
Theorem failed_open_keeps_files (w : os) (sched : list nat)
    (input_file output_file : str) (max_workers : Z)
    (t : list event) (r : result unit) (e : exn) :
  write_fault w output_file = Some (O, e) →
  process_ipv4_list w sched input_file output_file max_workers = Some (t, r) →
  Forall (λ ev, is_file_event ev = false) t
  ∧ (∀ fs, replay t fs = fs)
  ∧ (∀ f, open_read w input_file = Return f → read_loop f [] ≠ [] →
          0 < max_workers →
          r = Raise TypeError ∧ lookups t ≡ₚ read_loop f []).
Proof.
  intros Hfault Hrun.
  destruct (open_read w input_file) as [f|e0] eqn:Hopen.
  2:{ unfold process_ipv4_list in Hrun. rewrite Hopen in Hrun.
      destruct (is_FileNotFoundError e0); injection Hrun as <- <-;
        (split_and!; [by repeat constructor | done | done]). }
  destruct (read_loop f []) as [|c cands] eqn:Hcands.
  { unfold process_ipv4_list in Hrun. rewrite Hopen, Hcands in Hrun.
    injection Hrun as <- <-.
    split_and!; [by repeat constructor | done |].
    intros f' [= <-] Hne. by rewrite Hcands in Hne. }
  destruct (decide (0 < max_workers)) as [Hmw|Hmw].
  2:{ unfold process_ipv4_list in Hrun. rewrite Hopen, Hcands in Hrun.
      rewrite (proj2 (Z.leb_le max_workers 0)) in Hrun by lia.
      injection Hrun as <- <-.
      split_and!; [by repeat constructor | done | done]. }
  destruct (process_pool _ _ _ _ _ _ _ _ Hopen ltac:(by rewrite Hcands) Hmw Hrun)
    as (s & t' & Hexec & Hdone & Hinv & Hfin & ->).
  rewrite Hcands in *.
  assert (Forall (λ ev, is_file_event ev = false) (trace s)) as Htr.
  { eapply Forall_impl; [apply (inv_trace _ _ _ Hinv)|].
    intros ev He. by apply event_ok_no_file in He as [? _]. }
  assert (t' = [] ∧ r = Raise TypeError) as [-> ->].
  { destruct (pool_run_cases w (c :: cands) output_file s ltac:(done)
                Hinv Hdone) as [[_ Hf]|(_ & _ & Hf)]; rewrite Hf in Hfin.
    - by injection Hfin as <- <-.
    - unfold write_results in Hfin. rewrite Hfault in Hfin.
      by injection Hfin as <- <-. }
  rewrite app_nil_r.
  assert (Forall (λ ev, is_file_event ev = false)
            (EPrint (MsgProcessing (length (c :: cands))) :: trace s))
    as Hall by (by constructor).
  split_and!; [done | intros fs; by apply replay_no_file |].
  intros f' [= <-] _ _. split; [done|].
  destruct (init_trace w (c :: cands)) as [HL HP].
  destruct (exec_trace w (c :: cands) _ _ _ _ ltac:(done)
              (init_inv w (c :: cands)) HL HP Hexec) as [HL' _].
  change (lookups (EPrint (MsgProcessing (length (c :: cands))) :: trace s))
    with (lookups (trace s)).
  rewrite HL', Hcands. apply forallb_Forall in Hdone.
  rewrite looked_up_all; [done| |done].
  symmetry. apply (Forall2_length _ _ _ (inv_pc _ _ _ Hinv)).
Qed.

Lemma failed_open_keeps_files_witness :
  (∀ fs, replay [EPrint (MsgProcessing 1); ELookup (lit "1.1.1.1")] fs = fs)
  ∧ (Raise TypeError : result unit) = Raise TypeError
  ∧ lookups [EPrint (MsgProcessing 1); ELookup (lit "1.1.1.1")]
    ≡ₚ read_loop [lit "1.1.1.1"] [].
Proof.
  destruct (failed_open_keeps_files Sample.sys (Sample.turns_found 0)
              (lit "one.ipv4") (lit "readonly.ipv6") 20
              [EPrint (MsgProcessing 1); ELookup (lit "1.1.1.1")]
              (Raise TypeError) PermissionError
              ltac:(reflexivity) ltac:(vm_compute; reflexivity))
    as (_ & Hfiles & Hend).
  split; [exact Hfiles|].
  apply (Hend [lit "1.1.1.1"]); [reflexivity | discriminate | reflexivity].
Defined.

(** ** The whole run: a task that raises *)

(** X16. When the resolver raises for some candidate, every run ends with
    the [TypeError] of the handler of line 116, whatever the schedule: the
    output file is not opened, no statistics are printed, and all files are
    what they were. *)
Theorem escaped_failure_aborts (w : os) (sched : list nat)
    (input_file output_file : str) (max_workers : Z) (f : list str)
    (t : list event) (r : result unit) :
  open_read w input_file = Return f →
  0 < max_workers →
  forallb (resolves w) (read_loop f []) = false →
  process_ipv4_list w sched input_file output_file max_workers = Some (t, r) →
  r = Raise TypeError
  ∧ Forall (λ e, is_file_event e = false ∧ is_statistics e = false) t
  ∧ ∀ fs, replay t fs = fs.
Proof.
  intros Hopen Hmw Hall Hrun.
  assert (read_loop f [] ≠ []) as Hne.
  { intros Hnil. by rewrite Hnil in Hall. }
  destruct (process_pool _ _ _ _ _ _ _ _ Hopen Hne Hmw Hrun)
    as (s & t' & Hexec & Hdone & Hinv & Hfin & ->).
  destruct (final_state_expected _ _ _ _ _ Hexec Hdone) as (Htasks & _).
  assert (Forall (λ e, is_file_event e = false ∧ is_statistics e = false)
            (trace s)) as Htr.
  { eapply Forall_impl; [apply (inv_trace _ _ _ Hinv)|].
    intros e He. by apply event_ok_no_file in He. }
  destruct (pool_run_cases w _ output_file s Hne Hinv Hdone)
    as [[_ Hf]|(Hok & _)].
  - rewrite Hf in Hfin. injection Hfin as <- <-. rewrite app_nil_r.
    split_and!; [done|by constructor|].
    intros fs. rewrite replay_cons. simpl. apply replay_no_file.
    eapply Forall_impl; [done|]. by intros e [? _].
  - rewrite Htasks in Hok. apply expected_failed in Hok. congruence.
Qed.

Lemma escaped_failure_aborts_witness :
  (Raise TypeError : result unit) = Raise TypeError
  ∧ Forall (λ e, is_file_event e = false ∧ is_statistics e = false)
      [EPrint (MsgProcessing 2); ELookup (lit "1.1.1.1"); ELookup (lit "a..b")]
  ∧ ∀ fs, replay [EPrint (MsgProcessing 2); ELookup (lit "1.1.1.1");
                  ELookup (lit "a..b")] fs = fs.
Proof.
  apply (escaped_failure_aborts Sample.sys
           (Sample.turns_found 0 ++ [1; 1]%nat)
           (lit "mixed.ipv4") (lit "list.ipv6") 20
           [lit "1.1.1.1"; lit "a..b"]).
  - reflexivity.
  - reflexivity.
  - reflexivity.
  - vm_compute. reflexivity.
Defined.

(** ** The entry point *)

(** The ways a run can end. *)
Lemma run_endings (w : os) (sched : list nat) (input_file output_file : str)
    (max_workers : Z) (t : list event) (r : result unit) :
  process_ipv4_list w sched input_file output_file max_workers = Some (t, r) →
  r = Return tt ∨ r = Raise TypeError
  ∨ (r = Raise ValueError ∧ max_workers ≤ 0).
Proof.
  intros Hrun.
  destruct (open_read w input_file) as [f|e] eqn:Hopen.
  2:{ unfold process_ipv4_list in Hrun. rewrite Hopen in Hrun.
      destruct (is_FileNotFoundError e); injection Hrun as <- <-; auto. }
  destruct (read_loop f []) as [|c cands] eqn:Hcands.
  { unfold process_ipv4_list in Hrun. rewrite Hopen, Hcands in Hrun.
    injection Hrun as <- <-. auto. }
  destruct (decide (0 < max_workers)) as [Hmw|Hmw].
  2:{ unfold process_ipv4_list in Hrun. rewrite Hopen, Hcands in Hrun.
      rewrite (proj2 (Z.leb_le max_workers 0)) in Hrun by lia.
      injection Hrun as <- <-. right. right. split; [done|lia]. }
  destruct (process_pool _ _ _ _ _ _ _ _ Hopen ltac:(by rewrite Hcands) Hmw Hrun)
    as (s & t' & Hexec & Hdone & Hinv & Hfin & ->).
  rewrite Hcands in *.
  destruct (pool_run_cases w (c :: cands) output_file s ltac:(done) Hinv Hdone)
    as [[_ Hf]|(_ & _ & Hf)]; rewrite Hf in Hfin.
  - injection Hfin as <- <-. auto.
  - destruct (write_results w output_file (ipv6_results s)) as [t1 [[]|e]];
      injection Hfin as <- <-; auto.
Qed.

(** X17. The entry point prints its two banner lines and runs the default
    files [list.ipv4] and [list.ipv6] with 20 workers; it ends by returning
    or with the [TypeError] of a handler, never otherwise. *)
Theorem main_outcome (w : os) (sched : list nat) (t : list event)
    (r : result unit) :
  main w sched = Some (t, r) →
  ∃ t',
    process_ipv4_list w sched (lit "list.ipv4") (lit "list.ipv6") 20
    = Some (t', r)
    ∧ t = EPrint (MsgText (lit "IPv4 to IPv6 Lookup Tool"))
          :: EPrint (MsgText (replicate 30 61%N)) :: t'
    ∧ (r = Return tt ∨ r = Raise TypeError).
Proof.
  unfold main. intros Hmain.
  destruct (process_ipv4_list _ _ _ _ _) as [[t' r']|] eqn:Hrun; [|done].
  injection Hmain as <- <-. exists t'. split_and!; [done|done|].
  destruct (run_endings _ _ _ _ _ _ _ Hrun) as [?|[?|[_ Hmw]]]; [by left|by right|].
  lia.
Qed.

Lemma main_outcome_witness :
  ∃ t',
    process_ipv4_list Sample.sys (Sample.turns_found 0 ++ Sample.turns_none 1)
      (lit "list.ipv4") (lit "list.ipv6") 20
    = Some (t', Return tt)
    ∧ EPrint (MsgText (lit "IPv4 to IPv6 Lookup Tool"))
      :: EPrint (MsgText (replicate 30 61%N))
      :: [EPrint (MsgProcessing 2); ELookup (lit "1.1.1.1");
          ELookup (lit "8.8.8.8"); EOpenWrite (lit "list.ipv6");
          EWrite (lit "list.ipv6") (lit "2606::1111" ++ [10%N]);
          EPrint MsgCompleted; EPrint (MsgTotal 2); EPrint (MsgFound 1);
          EPrint (MsgRate (inject_Z 1 / inject_Z 2 * 100)%Q);
          EPrint (MsgSaved (lit "list.ipv6"))]
      = EPrint (MsgText (lit "IPv4 to IPv6 Lookup Tool"))
        :: EPrint (MsgText (replicate 30 61%N)) :: t'
    ∧ (Return tt = Return tt ∨ Return tt = Raise TypeError).
Proof.
  apply (main_outcome Sample.sys
           (Sample.turns_found 0 ++ Sample.turns_none 1)).
  vm_compute. reflexivity.
Defined.
